(** * Statistics pipelines of the metabolomics application

    A shallow embedding of [src/anova.py], [src/ttest.py] and
    [pages/1_Data_Preparation.py].

    Conventions of the embedding:
    - intensities, statistics and p-values are rationals ([Q]); rounding of
      machine floats and the special value NaN are outside the model;
    - a pandas [DataFrame] is a list of column labels and a list of labelled
      rows; operations that pandas can refuse return an exception;
    - [st.session_state] is an explicit [Session] argument;
    - the statistics library (pingouin) and the sorting routine behind
      [sort_values] are interfaces: records of functions with the laws the
      pipelines rely on. *)

From Stdlib Require Import String Ascii.
From Stdlib Require Import List Bool Arith Lia ZArith.
From Stdlib Require Import QArith Qminmax.
From Stdlib Require Import Permutation Sorted.
Import ListNotations.

Local Open Scope string_scope.
Local Open Scope Q_scope.

(** ** Exceptions and the error monad *)

Inductive exn : Type :=
| KeyError (label : string)
| ValueError (msg : string)
| IndexError
| TypeError
| Unmodelled (what : string)
| Raised (cls : string).

Inductive result (A : Type) : Type :=
| OK (a : A)
| Error (e : exn).

Arguments OK {A} a.
Arguments Error {A} e.

Definition bind {A B} (m : result A) (k : A -> result B) : result B :=
  match m with
  | OK a => k a
  | Error e => Error e
  end.

Notation "x <- m ;; k" := (bind m (fun x => k))
  (at level 61, m at next level, right associativity).
Notation "' p <- m ;; k" := (bind m (fun x => match x with p => k end))
  (at level 61, p pattern, m at next level, right associativity).

Fixpoint mapM {A B} (f : A -> result B) (l : list A) : result (list B) :=
  match l with
  | [] => OK []
  | a :: l' => b <- f a ;; bs <- mapM f l' ;; OK (b :: bs)
  end.

(** ** Numbers *)

Definition Qltb (x y : Q) : bool := negb (Qle_bool y x).
Definition Qgeb (x y : Q) : bool := Qle_bool y x.

Definition of_nat (n : nat) : Q := inject_Z (Z.of_nat n).

Definition Qsum (l : list Q) : Q := fold_right Qplus 0 l.

Definition mean (l : list Q) : Q := Qsum l / of_nat (length l).

(** ** Cells, rows and frames *)

Inductive cell : Type :=
| Str (s : string)
| Num (q : Q)
| Flag (b : bool)
| Arr (l : list Q)
| NaN.

Record row : Type := mkRow { label : cell; cells : list cell }.

Record DataFrame : Type := mkFrame { columns : list string; rows : list row }.

Definition cell_eqb (a b : cell) : bool :=
  match a, b with
  | Str s, Str t => String.eqb s t
  | Num p, Num q => Qeq_bool p q
  | Flag x, Flag y => Bool.eqb x y
  | Arr l, Arr m =>
      (length l =? length m)%nat && forallb (fun pq => Qeq_bool (fst pq) (snd pq)) (combine l m)
  | _, _ => false
  end.

Definition has_column (name : string) (df : DataFrame) : bool :=
  existsb (String.eqb name) (columns df).

Fixpoint position (name : string) (cols : list string) : option nat :=
  match cols with
  | [] => None
  | c :: cols' =>
      if String.eqb name c then Some O
      else option_map S (position name cols')
  end.

Definition occurrences (name : string) (cols : list string) : nat :=
  length (filter (String.eqb name) cols).

(** [df[name]] as a position: a missing label is a [KeyError]; a label that
    names several columns selects a sub-frame in pandas, which is not
    modelled. *)
Definition loc_of (df : DataFrame) (name : string) : result nat :=
  match position name (columns df) with
  | None => Error (KeyError name)
  | Some i =>
      if (occurrences name (columns df) =? 1)%nat then OK i
      else Error (Unmodelled "duplicate column label")
  end.

Definition at_pos (i : nat) (r : row) : cell := nth i (cells r) NaN.

Definition get_col (df : DataFrame) (name : string) : result (list cell) :=
  i <- loc_of df name ;; OK (map (at_pos i) (rows df)).

Definition as_num (c : cell) : result Q :=
  match c with
  | Num q => OK q
  | _ => Error TypeError
  end.

Definition numeric_col (df : DataFrame) (name : string) : result (list Q) :=
  cs <- get_col df name ;; mapM as_num cs.

Definition insert_at {A} (loc : nat) (a : A) (l : list A) : list A :=
  firstn loc l ++ a :: skipn loc l.

(** [df.insert(loc, name, values)] with an array of values. *)
Definition insert (loc : nat) (name : string) (values : list cell)
  (df : DataFrame) : result DataFrame :=
  if has_column name df then Error (ValueError "already exists")
  else if (length (columns df) <? loc)%nat then Error IndexError
  else if negb (length values =? length (rows df))%nat
       then Error (ValueError "length of values does not match length of index")
  else OK (mkFrame (insert_at loc name (columns df))
                   (map (fun rv => mkRow (label (fst rv))
                                         (insert_at loc (snd rv) (cells (fst rv))))
                        (combine (rows df) values))).

(** [df.insert(loc, name, value)] with one value for every row. *)
Definition insert_scalar (loc : nat) (name : string) (value : cell)
  (df : DataFrame) : result DataFrame :=
  insert loc name (map (fun _ => value) (rows df)) df.

(** [pd.DataFrame(np.fromiter(records, dtype))]: the rows are labelled
    0, 1, 2, ... *)
Definition frame_of_records (cols : list string) (records : list (list cell))
  : DataFrame :=
  mkFrame cols
    (map (fun ir => mkRow (Num (of_nat (fst ir))) (snd ir))
         (combine (seq 0 (length records)) records)).

(** The numpy field type [U100] keeps the first 100 characters. *)
Definition U100 (s : string) : string := substring 0 100 s.

(** ** Sorting

    [sort_values] is called with pandas' default sorting algorithm, which
    orders the keys and permutes the rows but fixes no order among equal
    keys.  The pipelines are therefore written against this interface. *)

Record Sorter : Type := mkSorter {
  sort_by : forall A : Type, (A -> Q) -> list A -> list A;
  sort_by_perm : forall (A : Type) (key : A -> Q) (l : list A),
      Permutation l (sort_by A key l);
  sort_by_sorted : forall (A : Type) (key : A -> Q) (l : list A),
      StronglySorted (fun a b => key a <= key b) (sort_by A key l)
}.

Arguments sort_by s {A} key l.

Definition key_at (i : nat) (r : row) : Q :=
  match at_pos i r with
  | Num q => q
  | _ => 0
  end.

Definition sort_values (S : Sorter) (by_ : string) (df : DataFrame)
  : result DataFrame :=
  i <- loc_of df by_ ;;
  _ <- mapM as_num (map (at_pos i) (rows df)) ;;
  OK (mkFrame (columns df) (sort_by S (key_at i) (rows df))).

(** A stable insertion sort, one implementation of the interface. *)
Fixpoint insert_sorted {A} (key : A -> Q) (a : A) (l : list A) : list A :=
  match l with
  | [] => [a]
  | b :: l' =>
      if Qle_bool (key a) (key b) then a :: b :: l'
      else b :: insert_sorted key a l'
  end.

Definition insertion_sort {A} (key : A -> Q) (l : list A) : list A :=
  fold_right (insert_sorted key) [] l.

(** ** Multiple-testing correction *)

(** Modelled from the spec: [pg.multicomp(pvals, method="bonf")[1]] is the
    statistics library's Bonferroni correction, which is not part of the
    sources; the spec gives it as [corrected_i = min(1, p_i * n)] with [n]
    the number of p-values passed. *)
Definition multicomp_bonf (pvals : list Q) : list Q :=
  map (fun p => Qmin 1 (p * of_nat (length pvals))) pvals.

Definition alpha : Q := 5 # 100.

Definition below_alpha (q : Q) : cell := Flag (Qltb q alpha).

(** ** More frame operations *)

Definition as_flag (c : cell) : result bool :=
  match c with
  | Flag b => OK b
  | _ => Error TypeError
  end.

Definition as_str (c : cell) : result string :=
  match c with
  | Str s => OK s
  | _ => Error (Unmodelled "label that is not a string")
  end.

(** [df[mask]] with a boolean mask, one entry per row. *)
Definition select_rows (mask : list bool) (df : DataFrame) : DataFrame :=
  mkFrame (columns df)
          (map fst (filter (fun rb => snd rb) (combine (rows df) mask))).

(** The row cut to the frame's width, missing cells read as [NaN]. *)
Definition row_cells (width : nat) (r : row) : list cell :=
  map (fun i => at_pos i r) (seq 0 width).

Fixpoint all_eqb (a b : list cell) : bool :=
  match a, b with
  | [], [] => true
  | x :: a', y :: b' => cell_eqb x y && all_eqb a' b'
  | _, _ => false
  end.

(** [pd.concat([a, b], axis=1)] for two frames with the same index.  With
    different indexes pandas aligns the rows (outer join), which is not
    modelled. *)
Definition concat_axis1 (a b : DataFrame) : result DataFrame :=
  if all_eqb (map label (rows a)) (map label (rows b)) then
    OK (mkFrame (columns a ++ columns b)
          (map (fun ab => mkRow (label (fst ab))
                            (row_cells (length (columns a)) (fst ab)
                             ++ row_cells (length (columns b)) (snd ab)))
               (combine (rows a) (rows b))))
  else Error (Unmodelled "index alignment").

(** [df.loc[:, names]]: the named columns, in the order of [names]. *)
Definition select_columns (df : DataFrame) (names : list string)
  : result DataFrame :=
  locs <- mapM (loc_of df) names ;;
  OK (mkFrame names
        (map (fun r => mkRow (label r) (map (fun i => at_pos i r) locs))
             (rows df))).

(** [df.set_index(name)]: the column becomes the row label. *)
Definition set_index (name : string) (df : DataFrame) : result DataFrame :=
  i <- loc_of df name ;;
  OK (mkFrame (firstn i (columns df) ++ skipn (S i) (columns df))
        (map (fun r => mkRow (at_pos i r)
                             (firstn i (cells r) ++ skipn (S i) (cells r)))
             (rows df))).

(** [pd.concat(frames)] along the rows, for frames with the same columns. *)
Fixpoint same_columns (cols : list string) (frames : list DataFrame) : bool :=
  match frames with
  | [] => true
  | f :: fs =>
      (if list_eq_dec string_dec (columns f) cols then true else false)
      && same_columns cols fs
  end.

Definition concat_rows (frames : list DataFrame) : result DataFrame :=
  match frames with
  | [] => Error (ValueError "No objects to concatenate")
  | f :: fs =>
      if same_columns (columns f) fs
      then OK (mkFrame (columns f) (flat_map rows frames))
      else Error (Unmodelled "concat of frames with different columns")
  end.

(** [s.replace(old, "")] for a non-empty [old]: every occurrence found from
    left to right is dropped.  [skip] counts the characters of a match that
    remain to be dropped. *)
Fixpoint drop_all (old : string) (skip : nat) (s : string) : string :=
  match s with
  | EmptyString => EmptyString
  | String c s' =>
      match skip with
      | S k => drop_all old k s'
      | O =>
          if prefix old s then drop_all old (String.length old - 1) s'
          else String c (drop_all old O s')
      end
  end.

Definition strip_attribute (s : string) : string := drop_all "ATTRIBUTE_" 0 s.

(** ** The session state *)

Record Session : Type := mkSession {
  data : DataFrame;              (* samples x features, numeric *)
  md : DataFrame;                (* samples x attributes *)
  ttest_attribute : string;      (* read by the plots *)
  ttest_options : list cell      (* read by the plots *)
}.

(** ** The statistics library *)

Inductive test_kind : Type := OneSample | PairedT | StudentT | WelchT.

Record ttest_stats : Type := mkStats {
  T : Q; dof : Q; alternative : string; p_val : Q;
  CI95 : list Q; cohen_d : Q; BF10 : string; power : Q
}.

(** The numerical kernels of pingouin: the statistics and p-values are
    values of distribution functions, which the pipelines only pass on. *)
Record Pingouin : Type := mkPingouin {
  (* one-way ANOVA of the values [dv] grouped by [between]: (p-unc, F) *)
  anova_oneway : list cell -> list cell -> result (Q * Q);
  (* the t statistics of one kind of test on two samples *)
  ttest_kernel : test_kind -> list Q -> list Q -> ttest_stats;
  (* Tukey's HSD p-value of the contrast of the groups [a] and [b] *)
  tukey_pvalue : list (string * list Q) -> string -> string -> Q
}.

(** [pg.ttest(x, y, paired)] is code of the statistics library, not of the
    repository; the choice of the test is modelled from the library's
    documentation of the call as the code makes it (default
    [correction="auto"]): a second sample of one value is a one-sample test;
    [paired] with samples of different sizes is run as an unpaired test
    (with a warning); an unpaired test is Welch's when the sizes differ and
    Student's otherwise. *)
Definition select_test (paired : bool) (nx ny : nat) : test_kind :=
  let paired := paired && (nx =? ny)%nat in
  if (ny =? 1)%nat then OneSample
  else if paired then PairedT
  else if (nx =? ny)%nat then StudentT
  else WelchT.

Definition pg_ttest (P : Pingouin) (x y : list Q) (paired : bool)
  : result ttest_stats :=
  if ((length x =? 0) || (length y =? 0))%nat
  then Error (Unmodelled "t-test on an empty sample")
  else OK (ttest_kernel P (select_test paired (length x) (length y)) x y).

Definition ttest_columns : list string :=
  ["T"; "dof"; "alternative"; "p-val"; "CI95%"; "cohen-d"; "BF10"; "power"].

(** The one-row frame that [pg.ttest] returns. *)
Definition ttest_frame (st : ttest_stats) : DataFrame :=
  mkFrame ttest_columns
    [mkRow (Str "T-test")
       [Num (T st); Num (dof st); Str (alternative st); Num (p_val st);
        Arr (CI95 st); Num (cohen_d st); Str (BF10 st); Num (power st)]].

(** [result["metabolite"] = col] on a frame without that column: a new last
    column. *)
Definition assign_column (name : string) (value : cell) (df : DataFrame)
  : result DataFrame :=
  insert_scalar (length (columns df)) name value df.

(** ** ANOVA ([src/anova.py]) *)

Definition gen_anova_data (P : Pingouin) (df : DataFrame)
  (cols : list string) (groups_col : string) : result (list (string * Q * Q)) :=
  mapM (fun col =>
          dv <- get_col df col ;;
          between <- get_col df groups_col ;;
          pf <- anova_oneway P dv between ;;
          OK (col, fst pf, snd pf))
       cols.

Definition add_bonferroni_to_anova (S : Sorter) (df : DataFrame)
  : result DataFrame :=
  df1 <- (if has_column "p_bonferroni" df then OK df
          else p <- numeric_col df "p" ;;
               insert 2 "p_bonferroni" (map Num (multicomp_bonf p)) df) ;;
  df2 <- (if has_column "significant" df1 then OK df1
          else pb <- numeric_col df1 "p_bonferroni" ;;
               insert 3 "significant" (map below_alpha pb) df1) ;;
  sort_values S "p" df2.

Definition anova_columns : list string := ["metabolite"; "p"; "F"].

Definition anova_record (t : string * Q * Q) : list cell :=
  [Str (U100 (fst (fst t))); Num (snd (fst t)); Num (snd t)].

Definition anova (P : Pingouin) (S : Sorter) (sess : Session)
  (df : DataFrame) (attribute : string) : result DataFrame :=
  joined <- concat_axis1 df (md sess) ;;
  recs <- gen_anova_data P joined (columns df) attribute ;;
  add_bonferroni_to_anova S
    (frame_of_records anova_columns (map anova_record recs)).

(** ** Tukey's test ([src/anova.py]) *)

Record contrast : Type := mkContrast {
  c_A : string; c_B : string; c_meanA : Q; c_meanB : Q; c_diff : Q; c_p : Q
}.

Fixpoint insert_string (a : string) (l : list string) : list string :=
  match l with
  | [] => [a]
  | b :: l' => if String.leb a b then a :: b :: l' else b :: insert_string a l'
  end.

Definition sort_strings (l : list string) : list string :=
  fold_right insert_string [] l.

Fixpoint combinations2 {A} (l : list A) : list (A * A) :=
  match l with
  | [] => []
  | a :: l' => map (pair a) l' ++ combinations2 l'
  end.

(** The groups of [ys] by the labels [gs]: one per level, levels sorted. *)
Definition group_by (ys : list Q) (gs : list string)
  : list (string * list Q) :=
  map (fun g => (g, map fst (filter (fun yg => String.eqb (snd yg) g)
                                    (combine ys gs))))
      (sort_strings (nodup string_dec gs)).

(** [pg.pairwise_tukey(df, dv, between)] is code of the statistics library,
    not of the repository; modelled from the library's documentation: one
    row per pair of levels present in the [between] column (levels sorted,
    pairs in the order of [itertools.combinations]), with the labels and
    means of the two groups, the difference of the means and the p-value. *)
Definition pairwise_tukey (P : Pingouin) (df : DataFrame)
  (dv between : string) : result (list contrast) :=
  ys <- numeric_col df dv ;;
  gs <- (cs <- get_col df between ;; mapM as_str cs) ;;
  let groups := group_by ys gs in
  OK (map (fun ab =>
             let a := fst ab in
             let b := snd ab in
             mkContrast (fst a) (fst b) (mean (snd a)) (mean (snd b))
                        (mean (snd a) - mean (snd b))
                        (tukey_pvalue P groups (fst a) (fst b)))
          (combinations2 groups)).

(** The tuple that [gen_pairwise_tukey] yields from row 0 of the result. *)
Definition tukey_record (attribute : string) (mc : string * contrast)
  : list cell :=
  let c := snd mc in
  [Str (U100 (fst mc)); Num (c_diff c); Num (c_p c);
   Str (U100 (strip_attribute attribute));
   Str (U100 (c_A c)); Str (U100 (c_B c));
   Num (c_meanA c); Num (c_meanB c)].

Definition row0 (metabolite : string) (tukey : list contrast)
  : result (string * contrast) :=
  match tukey with
  | [] => Error (KeyError "0")
  | c :: _ => OK (metabolite, c)
  end.

Definition gen_pairwise_tukey (P : Pingouin) (df : DataFrame)
  (metabolites : list string) (attribute : string)
  : result (list (string * contrast)) :=
  mapM (fun metabolite =>
          tukey <- pairwise_tukey P df metabolite attribute ;;
          row0 metabolite tukey)
       metabolites.

Definition add_bonferroni_to_tukeys (S : Sorter) (tukey : DataFrame)
  : result DataFrame :=
  if has_column "stats_p_bonferroni" tukey then OK tukey
  else
    p <- numeric_col tukey "stats_p" ;;
    t1 <- insert 3 "stats_p_bonferroni" (map Num (multicomp_bonf p)) tukey ;;
    pb <- numeric_col t1 "stats_p_bonferroni" ;;
    t2 <- insert 4 "stats_significant" (map below_alpha pb) t1 ;;
    sort_values S "stats_p" t2.

Definition tukey_columns : list string :=
  ["stats_metabolite"; "diff"; "stats_p"; "attribute"; "A"; "B";
   "mean(A)"; "mean(B)"].

Definition isin (elements : list cell) (c : cell) : bool :=
  existsb (cell_eqb c) elements.

Definition tukey (P : Pingouin) (S : Sorter) (sess : Session)
  (df : DataFrame) (attribute : string) (elements : list cell)
  : result DataFrame :=
  mask <- (cs <- get_col df "significant" ;; mapM as_flag cs) ;;
  significant_metabolites <-
    (cs <- get_col (select_rows mask df) "metabolite" ;; mapM as_str cs) ;;
  features <- select_columns (data sess) significant_metabolites ;;
  attr <- select_columns (md sess) [attribute] ;;
  joined <- concat_axis1 features attr ;;
  levels <- get_col joined attribute ;;
  let data := select_rows (map (isin elements) levels) joined in
  recs <- gen_pairwise_tukey P data significant_metabolites attribute ;;
  add_bonferroni_to_tukeys S
    (frame_of_records tukey_columns (map (tukey_record attribute) recs)).

(** ** The t-test ([src/ttest.py]) *)

Definition item (l : list cell) (i : nat) : result cell :=
  match nth_error l i with
  | Some c => OK c
  | None => Error IndexError
  end.

(** [values[labels == g]] *)
Definition where_eq (values labels : list cell) (g : cell) : list cell :=
  map fst (filter (fun vl => cell_eqb (snd vl) g) (combine values labels)).

(** The two samples of one feature (lines 13 and 14). *)
Definition feature_groups (df : DataFrame) (ttest_attribute : string)
  (target_groups : list cell) (col : string) : result (list Q * list Q) :=
  values <- get_col df col ;;
  labels <- get_col df ttest_attribute ;;
  g0 <- item target_groups 0 ;;
  group1 <- mapM as_num (where_eq values labels g0) ;;
  g1 <- item target_groups 1 ;;
  group2 <- mapM as_num (where_eq values labels g1) ;;
  OK (group1, group2).

Definition ttest_feature (P : Pingouin) (df : DataFrame)
  (ttest_attribute : string) (target_groups : list cell) (paired : bool)
  (col : string) : result DataFrame :=
  groups <- feature_groups df ttest_attribute target_groups col ;;
  st <- pg_ttest P (fst groups) (snd groups) paired ;;
  assign_column "metabolite" (Str col) (ttest_frame st).

Definition gen_ttest_data (P : Pingouin) (S : Sorter) (sess : Session)
  (ttest_attribute : string) (target_groups : list cell) (paired : bool)
  : result DataFrame :=
  df <- concat_axis1 (data sess) (md sess) ;;
  frames <- mapM (ttest_feature P df ttest_attribute target_groups paired)
                 (columns (data sess)) ;;
  all <- concat_rows frames ;;
  ttest <- set_index "metabolite" all ;;
  p <- numeric_col ttest "p-val" ;;
  t1 <- insert 8 "p-bonf" (map Num (multicomp_bonf p)) ttest ;;
  pb <- numeric_col t1 "p-bonf" ;;
  t2 <- insert 9 "significance" (map below_alpha pb) t1 ;;
  t3 <- insert_scalar 10 "st.session_state.ttest_attribute"
          (Str (strip_attribute ttest_attribute)) t2 ;;
  g0 <- item target_groups 0 ;;
  t4 <- insert_scalar 11 "A" g0 t3 ;;
  g1 <- item target_groups 1 ;;
  t5 <- insert_scalar 12 "B" g1 t4 ;;
  sort_values S "p-bonf" t5.

(** [df.loc[label, name]] for a label that names one row. *)
Definition loc_cell (df : DataFrame) (lbl : cell) (name : string)
  : result cell :=
  i <- loc_of df name ;;
  match filter (fun r => cell_eqb (label r) lbl) (rows df) with
  | [] => Error (KeyError "row label")
  | [r] => OK (at_pos i r)
  | _ => Error (Unmodelled "duplicate row label")
  end.

(** The bracket symbol of [ttest_boxplot]. *)
Definition bracket_symbol (pvalue : Q) : string :=
  if Qgeb pvalue (5 # 100) then "ns"
  else if Qgeb pvalue (1 # 100) then "*"
  else if Qgeb pvalue (1 # 1000) then "**"
  else "***".

Definition ttest_boxplot_symbol (df_ttest : DataFrame) (metabolite : string)
  : result string :=
  c <- loc_cell df_ttest (Str metabolite) "p-bonf" ;;
  pvalue <- as_num c ;;
  OK (bracket_symbol pvalue).

(** ** Data preparation ([pages/1_Data_Preparation.py]) *)

(** [df.index[mask]]-style selections used by the page. *)
Definition labels_where (df : DataFrame) (column : string) (value : cell)
  : result (list cell) :=
  cs <- get_col df column ;;
  OK (map label (rows (select_rows (map (fun c => cell_eqb c value) cs) df))).

(** [df.loc[labels]]: for every label, the rows that carry it. *)
Definition loc_rows (df : DataFrame) (labels : list cell) : DataFrame :=
  mkFrame (columns df)
    (flat_map (fun l => filter (fun r => cell_eqb (label r) l) (rows df))
              labels).

(** [ft[labels]]: the columns named by the labels. *)
Definition columns_of (ft : DataFrame) (labels : list cell)
  : result DataFrame :=
  names <- mapM as_str labels ;;
  select_columns ft names.

(** [samples = ft[md[md[sample_column] == sample_row].index]] *)
Definition select_samples (ft md_ : DataFrame) (sample_column : string)
  (sample_row : cell) : result DataFrame :=
  labels <- labels_where md_ sample_column sample_row ;;
  columns_of ft labels.

(** [index not in samples.columns] *)
Definition not_in_columns (samples : DataFrame) (index : cell) : bool :=
  negb (existsb (fun c => cell_eqb index (Str c)) (columns samples)).

Definition non_samples_md (md_ samples : DataFrame) : DataFrame :=
  loc_rows md_ (filter (not_in_columns samples) (map label (rows md_))).

(** [blanks = ft[non_samples_md[non_samples_md[blank_column] == blank_row].index]] *)
Definition select_blanks (ft md_ samples : DataFrame) (blank_column : string)
  (blank_row : cell) : result DataFrame :=
  labels <- labels_where (non_samples_md md_ samples) blank_column blank_row ;;
  columns_of ft labels.

(** *** Missing values *)

Definition is_zero (c : cell) : bool :=
  match c with
  | Num q => Qeq_bool q 0
  | _ => false
  end.

Definition all_cells (df : DataFrame) : list cell :=
  flat_map cells (rows df).

(** [(ft == 0).to_numpy().mean()] *)
Definition zero_fraction (ft : DataFrame) : Q :=
  of_nat (length (filter is_zero (all_cells ft)))
  / of_nat (length (all_cells ft)).



Definition Qminimum (q : Q) (l : list Q) : Q := fold_right Qmin q l.










(** ** Memoization ([@st.cache_data]) *)





(** ** Stand-ins to run the pipelines

    Simple rational functions of the samples in place of the numerical
    kernels, so that the pipelines can be evaluated on concrete tables.  The
    degrees of freedom are those of the test that is run. *)

Definition Qabs_diff (x y : Q) : Q := if Qle_bool x y then y - x else x - y.

Definition sq_dev (l : list Q) : Q :=
  Qsum (map (fun y => (y - mean l) * (y - mean l)) l).

Definition variance (l : list Q) : Q := sq_dev l / (of_nat (length l) - 1).

Definition demo_dof (k : test_kind) (x y : list Q) : Q :=
  let nx := of_nat (length x) in
  let ny := of_nat (length y) in
  match k with
  | OneSample | PairedT => nx - 1
  | StudentT => nx + ny - 2
  | WelchT =>
      let a := variance x / nx in
      let b := variance y / ny in
      (a + b) * (a + b) / (a * a / (nx - 1) + b * b / (ny - 1))
  end.

Definition demo_ttest (k : test_kind) (x y : list Q) : ttest_stats :=
  let t := mean x - mean y in
  let p := 1 / (1 + Qabs_diff (mean x) (mean y)) in
  mkStats t (demo_dof k x y) "two-sided" p [t - 1; t + 1] t "nan" (1 - p).

Fixpoint distinct_cells (cs : list cell) : list cell :=
  match cs with
  | [] => []
  | c :: cs' => c :: filter (fun d => negb (cell_eqb d c)) (distinct_cells cs')
  end.

Definition demo_anova (dv between : list cell) : result (Q * Q) :=
  ys <- mapM as_num dv ;;
  let group_mean g :=
    mean (map fst (filter (fun yl => cell_eqb (snd yl) g)
                          (combine ys between))) in
  let f := sq_dev (map group_mean (distinct_cells between)) in
  OK (1 / (1 + f), f).

Definition demo_tukey (groups : list (string * list Q)) (a b : string) : Q :=
  let values g :=
    match find (fun gv => String.eqb (fst gv) g) groups with
    | Some gv => snd gv
    | None => []
    end in
  1 / (1 + Qabs_diff (mean (values a)) (mean (values b))).

Definition demo_pingouin : Pingouin :=
  mkPingouin demo_anova demo_ttest demo_tukey.

(** * Properties *)

(** ** Reading a table *)

(** The cell of row [r] in the column [name] of [df]. *)
Definition field (df : DataFrame) (name : string) (r : row) : cell :=
  match position name (columns df) with
  | Some i => at_pos i r
  | None => NaN
  end.

(** ** Numbers *)

Lemma Qltb_lt (x y : Q) : Qltb x y = true <-> x < y.
Proof.
  unfold Qltb. rewrite negb_true_iff. split; intros H.
  - apply Qnot_le_lt. intros Hle. apply Qle_bool_iff in Hle. congruence.
  - destruct (Qle_bool y x) eqn:E; [|reflexivity].
    apply Qle_bool_iff in E. exfalso. apply (Qlt_not_le _ _ H E).
Qed.

Lemma Qgeb_le (x y : Q) : Qgeb x y = true <-> y <= x.
Proof. unfold Qgeb. apply Qle_bool_iff. Qed.

Lemma Qgeb_false (x y : Q) : Qgeb x y = false <-> x < y.
Proof.
  unfold Qgeb. split; intros H.
  - apply Qnot_le_lt. intros Hle. apply Qle_bool_iff in Hle. congruence.
  - destruct (Qle_bool y x) eqn:E; [|reflexivity].
    apply Qle_bool_iff in E. exfalso. apply (Qlt_not_le _ _ H E).
Qed.

(** ** The insertion sort implements the sorting interface *)

Lemma insert_sorted_perm {A} (key : A -> Q) (a : A) (l : list A) :
  Permutation (a :: l) (insert_sorted key a l).
Proof.
  induction l as [|b l IH]; simpl.
  - apply Permutation_refl.
  - destruct (Qle_bool (key a) (key b)).
    + apply Permutation_refl.
    + eapply perm_trans; [apply perm_swap|]. apply perm_skip, IH.
Qed.

Lemma insertion_sort_perm (A : Type) (key : A -> Q) (l : list A) :
  Permutation l (insertion_sort key l).
Proof.
  induction l as [|a l IH]; simpl.
  - apply perm_nil.
  - eapply perm_trans; [apply perm_skip, IH|]. apply insert_sorted_perm.
Qed.

Lemma insert_sorted_sorted {A} (key : A -> Q) (a : A) (l : list A) :
  StronglySorted (fun x y => key x <= key y) l ->
  StronglySorted (fun x y => key x <= key y) (insert_sorted key a l).
Proof.
  induction 1 as [|b l Hs IH Hb]; simpl.
  - constructor; constructor.
  - destruct (Qle_bool (key a) (key b)) eqn:E.
    + apply Qle_bool_iff in E.
      constructor; [constructor; assumption|].
      constructor; [assumption|].
      eapply Forall_impl; [|exact Hb].
      intros c Hc. simpl in Hc. eapply Qle_trans; eassumption.
    + assert (Hba : key b <= key a).
      { apply Qlt_le_weak, Qnot_le_lt. intros Hle.
        apply Qle_bool_iff in Hle. congruence. }
      constructor; [assumption|].
      eapply Permutation_Forall; [apply insert_sorted_perm|].
      constructor; assumption.
Qed.

Lemma insertion_sort_sorted (A : Type) (key : A -> Q) (l : list A) :
  StronglySorted (fun x y => key x <= key y) (insertion_sort key l).
Proof.
  induction l as [|a l IH]; simpl.
  - constructor.
  - apply insert_sorted_sorted, IH.
Qed.

Definition stable_sorter : Sorter :=
  mkSorter (@insertion_sort) insertion_sort_perm insertion_sort_sorted.

(** A second implementation, which puts equal keys in the reverse order. *)
Definition reversing_sort {A} (key : A -> Q) (l : list A) : list A :=
  insertion_sort key (rev l).

Lemma reversing_sort_perm (A : Type) (key : A -> Q) (l : list A) :
  Permutation l (reversing_sort key l).
Proof.
  unfold reversing_sort.
  eapply perm_trans; [apply Permutation_rev|]. apply insertion_sort_perm.
Qed.

Lemma reversing_sort_sorted (A : Type) (key : A -> Q) (l : list A) :
  StronglySorted (fun x y => key x <= key y) (reversing_sort key l).
Proof. apply insertion_sort_sorted. Qed.

Definition reversing_sorter : Sorter :=
  mkSorter (@reversing_sort) reversing_sort_perm reversing_sort_sorted.

(** ** Frames whose rows are given by a function *)

Lemma combine_map_both {X A B} (f : X -> A) (g : X -> B) (l : list X) :
  combine (map f l) (map g l) = map (fun x => (f x, g x)) l.
Proof. induction l as [|x l IH]; simpl; [reflexivity|now rewrite IH]. Qed.

Lemma combine_map_snd {A B C} (f : B -> C) (l : list A) (m : list B) :
  combine l (map f m) = map (fun x => (fst x, f (snd x))) (combine l m).
Proof.
  revert m. induction l as [|a l IH]; intros [|b m]; simpl;
    try reflexivity. now rewrite IH.
Qed.

Lemma frame_of_records_map {X} (cols : list string) (f : X -> list cell)
  (l : list X) :
  frame_of_records cols (map f l)
  = mkFrame cols
      (map (fun ix => mkRow (Num (of_nat (fst ix))) (f (snd ix)))
           (combine (seq 0 (length l)) l)).
Proof.
  unfold frame_of_records. rewrite length_map, combine_map_snd, map_map.
  reflexivity.
Qed.

Lemma mapM_as_num_map {X} (f : X -> cell) (q : X -> Q) (l : list X) :
  (forall x, f x = Num (q x)) ->
  mapM as_num (map f l) = OK (map q l).
Proof.
  intros H. induction l as [|x l IH]; simpl; [reflexivity|].
  rewrite H. simpl. rewrite IH. reflexivity.
Qed.

Lemma numeric_col_map {X} (g : X -> row) (q : X -> Q) (l : list X)
  (cols : list string) (name : string) (i : nat) :
  loc_of (mkFrame cols []) name = OK i ->
  (forall x, at_pos i (g x) = Num (q x)) ->
  numeric_col (mkFrame cols (map g l)) name = OK (map q l).
Proof.
  intros Hloc Hq. unfold numeric_col, get_col.
  unfold loc_of in *. simpl in *.
  destruct (position name cols); [|discriminate].
  destruct (occurrences name cols =? 1)%nat; [|discriminate].
  injection Hloc as ->. simpl. rewrite map_map.
  apply mapM_as_num_map, Hq.
Qed.

Lemma insert_map {X} (g : X -> row) (h : X -> cell) (l : list X)
  (cols : list string) (loc : nat) (name : string) :
  existsb (String.eqb name) cols = false ->
  (length cols <? loc)%nat = false ->
  insert loc name (map h l) (mkFrame cols (map g l))
  = OK (mkFrame (insert_at loc name cols)
          (map (fun x => mkRow (label (g x))
                               (insert_at loc (h x) (cells (g x)))) l)).
Proof.
  intros Hn Hl. unfold insert, has_column. simpl.
  rewrite Hn, Hl, !length_map, Nat.eqb_refl. simpl.
  rewrite combine_map_both, map_map. reflexivity.
Qed.

Lemma sort_values_map {X} (S : Sorter) (g : X -> row) (q : X -> Q)
  (l : list X) (cols : list string) (name : string) (i : nat) :
  loc_of (mkFrame cols []) name = OK i ->
  (forall x, at_pos i (g x) = Num (q x)) ->
  sort_values S name (mkFrame cols (map g l))
  = OK (mkFrame cols (sort_by S (key_at i) (map g l))).
Proof.
  intros Hloc Hq. unfold sort_values.
  unfold loc_of in *. simpl in *.
  destruct (position name cols); [|discriminate].
  destruct (occurrences name cols =? 1)%nat; [|discriminate].
  injection Hloc as ->. simpl. rewrite map_map.
  rewrite (mapM_as_num_map _ q); [reflexivity|exact Hq].
Qed.

Lemma multicomp_bonf_map {X} (q : X -> Q) (l : list X) :
  multicomp_bonf (map q l)
  = map (fun x => Qmin 1 (q x * of_nat (length l))) l.
Proof. unfold multicomp_bonf. now rewrite length_map, map_map. Qed.

(** ** The ANOVA table *)

Definition anova_final_columns : list string :=
  ["metabolite"; "p"; "p_bonferroni"; "significant"; "F"].

Definition anova_final (n : nat) (x : nat * (string * Q * Q)) : row :=
  let p := snd (fst (snd x)) in
  mkRow (Num (of_nat (fst x)))
        [Str (U100 (fst (fst (snd x)))); Num p;
         Num (Qmin 1 (p * of_nat n)); below_alpha (Qmin 1 (p * of_nat n));
         Num (snd (snd x))].

(** On a fresh table of ANOVA records the correction step succeeds, and
    this is its result. *)
Lemma add_bonferroni_to_anova_fresh (S : Sorter)
  (recs : list (string * Q * Q)) :
  add_bonferroni_to_anova S
    (frame_of_records anova_columns (map anova_record recs))
  = OK (mkFrame anova_final_columns
          (sort_by S (key_at 1)
             (map (anova_final (length recs))
                  (combine (seq 0 (length recs)) recs)))).
Proof.
  rewrite frame_of_records_map. unfold add_bonferroni_to_anova.
  set (L := combine (seq 0 (length recs)) recs).
  assert (HL : length L = length recs).
  { unfold L. rewrite length_combine, length_seq. apply Nat.min_id. }
  change (has_column "p_bonferroni" _) with false. cbv iota.
  rewrite (numeric_col_map _ (fun x => snd (fst (snd x))) L anova_columns "p" 1);
    [|reflexivity|reflexivity].
  simpl bind at 2.
  rewrite multicomp_bonf_map, map_map.
  rewrite insert_map; [|reflexivity|reflexivity].
  simpl bind at 1.
  change (has_column "significant" _) with false. cbv iota.
  rewrite (numeric_col_map _
             (fun x => Qmin 1 (snd (fst (snd x)) * of_nat (length L))) L
             _ "p_bonferroni" 2); [|reflexivity|reflexivity].
  simpl bind at 2.
  rewrite map_map.
  rewrite insert_map; [|reflexivity|reflexivity].
  simpl bind at 1.
  rewrite (sort_values_map S _ (fun x => snd (fst (snd x))) L _ "p" 1);
    [|reflexivity|reflexivity].
  rewrite HL. reflexivity.
Qed.

(** ** The Tukey table *)

Definition tukey_final_columns : list string :=
  ["stats_metabolite"; "diff"; "stats_p"; "stats_p_bonferroni";
   "stats_significant"; "attribute"; "A"; "B"; "mean(A)"; "mean(B)"].

Definition tukey_final (attribute : string) (n : nat)
  (x : nat * (string * contrast)) : row :=
  let c := snd (snd x) in
  mkRow (Num (of_nat (fst x)))
        [Str (U100 (fst (snd x))); Num (c_diff c); Num (c_p c);
         Num (Qmin 1 (c_p c * of_nat n));
         below_alpha (Qmin 1 (c_p c * of_nat n));
         Str (U100 (strip_attribute attribute));
         Str (U100 (c_A c)); Str (U100 (c_B c));
         Num (c_meanA c); Num (c_meanB c)].

Lemma add_bonferroni_to_tukeys_fresh (S : Sorter) (attribute : string)
  (recs : list (string * contrast)) :
  add_bonferroni_to_tukeys S
    (frame_of_records tukey_columns (map (tukey_record attribute) recs))
  = OK (mkFrame tukey_final_columns
          (sort_by S (key_at 2)
             (map (tukey_final attribute (length recs))
                  (combine (seq 0 (length recs)) recs)))).
Proof.
  rewrite frame_of_records_map. unfold add_bonferroni_to_tukeys.
  set (L := combine (seq 0 (length recs)) recs).
  assert (HL : length L = length recs).
  { unfold L. rewrite length_combine, length_seq. apply Nat.min_id. }
  change (has_column "stats_p_bonferroni" _) with false. cbv iota.
  rewrite (numeric_col_map _ (fun x => c_p (snd (snd x))) L
             tukey_columns "stats_p" 2); [|reflexivity|reflexivity].
  cbn [bind].
  rewrite multicomp_bonf_map, map_map.
  rewrite insert_map; [|reflexivity|reflexivity].
  cbn [bind].
  rewrite (numeric_col_map _
             (fun x => Qmin 1 (c_p (snd (snd x)) * of_nat (length L))) L
             _ "stats_p_bonferroni" 3); [|reflexivity|reflexivity].
  cbn [bind].
  rewrite map_map.
  rewrite insert_map; [|reflexivity|reflexivity].
  cbn [bind].
  rewrite (sort_values_map S _ (fun x => c_p (snd (snd x))) L _ "stats_p" 2);
    [|reflexivity|reflexivity].
  rewrite HL. reflexivity.
Qed.

(** ** The t-test table *)

Definition stats_cells (st : ttest_stats) : list cell :=
  [Num (T st); Num (dof st); Str (alternative st); Num (p_val st);
   Arr (CI95 st); Num (cohen_d st); Str (BF10 st); Num (power st)].

Definition feature_row (x : string * ttest_stats) : row :=
  mkRow (Str "T-test") (stats_cells (snd x) ++ [Str (fst x)]).

Definition feature_frame (x : string * ttest_stats) : DataFrame :=
  mkFrame (ttest_columns ++ ["metabolite"]) [feature_row x].

Definition ttest_final_columns : list string :=
  ttest_columns
  ++ ["p-bonf"; "significance"; "st.session_state.ttest_attribute"; "A"; "B"].

Definition ttest_final (attribute : string) (g0 g1 : cell) (n : nat)
  (x : string * ttest_stats) : row :=
  let pb := Qmin 1 (p_val (snd x) * of_nat n) in
  mkRow (Str (fst x))
        (stats_cells (snd x)
         ++ [Num pb; below_alpha pb; Str (strip_attribute attribute); g0; g1]).

(** What the loop over the features computes for one feature. *)
Definition feature_result (P : Pingouin) (df : DataFrame)
  (attribute : string) (groups : list cell) (paired : bool)
  (col : string) (x : string * ttest_stats) : Prop :=
  fst x = col /\
  exists gs, feature_groups df attribute groups col = OK gs
             /\ pg_ttest P (fst gs) (snd gs) paired = OK (snd x).

Lemma ttest_feature_frame P df attribute groups paired col f :
  ttest_feature P df attribute groups paired col = OK f ->
  exists x, f = feature_frame x
            /\ feature_result P df attribute groups paired col x.
Proof.
  unfold ttest_feature. intros H.
  destruct (feature_groups df attribute groups col) as [gs|] eqn:Eg;
    [|discriminate].
  cbn [bind] in H.
  destruct (pg_ttest P (fst gs) (snd gs) paired) as [st|] eqn:Es;
    [|discriminate].
  cbn [bind] in H.
  exists (col, st). split.
  - change (assign_column "metabolite" (Str col) (ttest_frame st))
      with (OK (feature_frame (col, st))) in H.
    congruence.
  - split; [reflexivity|]. exists gs. split; assumption.
Qed.

Lemma mapM_ttest_feature P df attribute groups paired cols frames :
  mapM (ttest_feature P df attribute groups paired) cols = OK frames ->
  exists xs, frames = map feature_frame xs
             /\ Forall2 (feature_result P df attribute groups paired) cols xs.
Proof.
  revert frames. induction cols as [|col cols IH]; simpl; intros frames H.
  - injection H as <-. exists []. split; [reflexivity|constructor].
  - destruct (ttest_feature P df attribute groups paired col) as [f|] eqn:Ef;
      [|discriminate].
    cbn [bind] in H.
    destruct (mapM _ cols) as [fs|]; [|discriminate].
    cbn [bind] in H. injection H as <-.
    destruct (ttest_feature_frame _ _ _ _ _ _ _ Ef) as [x [-> Hx]].
    destruct (IH fs eq_refl) as [xs [-> Hxs]].
    exists (x :: xs). split; [reflexivity|constructor; assumption].
Qed.

Lemma same_columns_feature_frames (xs : list (string * ttest_stats)) :
  same_columns (ttest_columns ++ ["metabolite"]) (map feature_frame xs)
  = true.
Proof.
  induction xs as [|x xs IH]; [reflexivity|].
  cbn [same_columns map].
  match goal with
  | |- context [list_eq_dec string_dec ?a ?b] =>
      destruct (list_eq_dec string_dec a b) as [_|Hne]
  end; [exact IH|exfalso; apply Hne; reflexivity].
Qed.

Lemma rows_of_feature_frames (xs : list (string * ttest_stats)) :
  flat_map rows (map feature_frame xs) = map feature_row xs.
Proof. induction xs as [|x xs IH]; simpl; [reflexivity|now rewrite IH]. Qed.

Lemma concat_rows_feature_frames (x : string * ttest_stats)
  (xs : list (string * ttest_stats)) :
  concat_rows (map feature_frame (x :: xs))
  = OK (mkFrame (ttest_columns ++ ["metabolite"]) (map feature_row (x :: xs))).
Proof.
  rewrite <- rows_of_feature_frames.
  unfold concat_rows. cbn [map].
  change (columns (feature_frame x))
    with (ttest_columns ++ ["metabolite"])%list.
  rewrite same_columns_feature_frames. reflexivity.
Qed.

Lemma ttest_table_fresh (S : Sorter) (attribute : string)
  (groups : list cell) (g0 g1 : cell) (xs : list (string * ttest_stats)) :
  item groups 0 = OK g0 ->
  item groups 1 = OK g1 ->
  (ttest <- set_index "metabolite"
              (mkFrame (ttest_columns ++ ["metabolite"]) (map feature_row xs)) ;;
   p <- numeric_col ttest "p-val" ;;
   t1 <- insert 8 "p-bonf" (map Num (multicomp_bonf p)) ttest ;;
   pb <- numeric_col t1 "p-bonf" ;;
   t2 <- insert 9 "significance" (map below_alpha pb) t1 ;;
   t3 <- insert_scalar 10 "st.session_state.ttest_attribute"
           (Str (strip_attribute attribute)) t2 ;;
   g0 <- item groups 0 ;;
   t4 <- insert_scalar 11 "A" g0 t3 ;;
   g1 <- item groups 1 ;;
   t5 <- insert_scalar 12 "B" g1 t4 ;;
   sort_values S "p-bonf" t5)
  = OK (mkFrame ttest_final_columns
          (sort_by S (key_at 8)
             (map (ttest_final attribute g0 g1 (length xs)) xs))).
Proof.
  intros Hg0 Hg1. unfold set_index.
  change (loc_of _ "metabolite") with (@OK nat 8%nat).
  cbn [bind rows columns]. rewrite map_map.
  change (firstn 8 (ttest_columns ++ ["metabolite"])
          ++ skipn 9 (ttest_columns ++ ["metabolite"]))%list
    with ttest_columns.
  rewrite (map_ext _ (fun x => mkRow (Str (fst x)) (stats_cells (snd x))));
    [|reflexivity].
  rewrite (numeric_col_map _ (fun x => p_val (snd x)) xs ttest_columns
             "p-val" 3); [|reflexivity|reflexivity].
  cbn [bind].
  rewrite multicomp_bonf_map, map_map.
  rewrite insert_map; [|reflexivity|reflexivity].
  cbn [bind].
  rewrite (numeric_col_map _
             (fun x => Qmin 1 (p_val (snd x) * of_nat (length xs))) xs
             _ "p-bonf" 8); [|reflexivity|reflexivity].
  cbn [bind].
  rewrite map_map.
  rewrite insert_map; [|reflexivity|reflexivity].
  cbn [bind].
  unfold insert_scalar. cbn [rows]. rewrite map_map.
  rewrite insert_map; [|reflexivity|reflexivity].
  rewrite Hg0. cbn [bind rows]. rewrite map_map.
  rewrite insert_map; [|reflexivity|reflexivity].
  rewrite Hg1. cbn [bind rows]. rewrite map_map.
  rewrite insert_map; [|reflexivity|reflexivity].
  cbn [bind].
  rewrite (sort_values_map S _
             (fun x => Qmin 1 (p_val (snd x) * of_nat (length xs))) xs
             _ "p-bonf" 8); [|reflexivity|reflexivity].
  reflexivity.
Qed.

Lemma feature_groups_items df attribute groups col gs :
  feature_groups df attribute groups col = OK gs ->
  exists g0 g1, item groups 0 = OK g0 /\ item groups 1 = OK g1.
Proof.
  unfold feature_groups. intros H.
  destruct (get_col df col); [|discriminate]. cbn [bind] in H.
  destruct (get_col df attribute); [|discriminate]. cbn [bind] in H.
  destruct (item groups 0) as [g0|]; [|discriminate]. cbn [bind] in H.
  destruct (mapM as_num _); [|discriminate]. cbn [bind] in H.
  destruct (item groups 1) as [g1|]; [|discriminate].
  exists g0, g1. split; reflexivity.
Qed.

(** The table of a successful t-test invocation: one row per feature of
    the cleaned table, ordered by the sort on "p-bonf". *)
Lemma gen_ttest_data_rows P S sess attribute groups paired t :
  gen_ttest_data P S sess attribute groups paired = OK t ->
  exists df xs g0 g1,
    concat_axis1 (data sess) (md sess) = OK df
    /\ item groups 0 = OK g0 /\ item groups 1 = OK g1
    /\ Forall2 (feature_result P df attribute groups paired)
               (columns (data sess)) xs
    /\ t = mkFrame ttest_final_columns
             (sort_by S (key_at 8)
                (map (ttest_final attribute g0 g1 (length xs)) xs)).
Proof.
  unfold gen_ttest_data. intros H.
  destruct (concat_axis1 (data sess) (md sess)) as [df|]; [|discriminate].
  cbn [bind] in H.
  destruct (mapM _ (columns (data sess))) as [frames|] eqn:Ef;
    [|discriminate].
  cbn [bind] in H.
  destruct (mapM_ttest_feature _ _ _ _ _ _ _ Ef) as [xs [-> Hxs]].
  destruct xs as [|x xs]; [discriminate|].
  rewrite concat_rows_feature_frames in H. cbn [bind] in H.
  assert (Hit : exists g0 g1, item groups 0 = OK g0 /\ item groups 1 = OK g1).
  { inversion Hxs as [|col y cols ys [_ [gs [Hgs _]]] _]; subst.
    eapply feature_groups_items; eassumption. }
  destruct Hit as [g0 [g1 [Hg0 Hg1]]].
  rewrite (ttest_table_fresh S attribute groups g0 g1 (x :: xs) Hg0 Hg1) in H.
  injection H as <-.
  exists df, (x :: xs), g0, g1. repeat split; assumption.
Qed.

(** ** The rows of the ANOVA and Tukey pipelines *)

Lemma anova_rows P S sess df attribute t :
  anova P S sess df attribute = OK t ->
  exists recs,
    t = mkFrame anova_final_columns
          (sort_by S (key_at 1)
             (map (anova_final (length recs))
                  (combine (seq 0 (length recs)) recs))).
Proof.
  unfold anova. intros H.
  destruct (concat_axis1 df (md sess)) as [joined|]; [|discriminate].
  cbn [bind] in H.
  destruct (gen_anova_data P joined (columns df) attribute) as [recs|];
    [|discriminate].
  cbn [bind] in H. rewrite add_bonferroni_to_anova_fresh in H.
  injection H as <-. exists recs. reflexivity.
Qed.

Lemma tukey_rows P S sess df attribute elements t :
  tukey P S sess df attribute elements = OK t ->
  exists joined levels names recs,
    get_col joined attribute = OK levels
    /\ gen_pairwise_tukey P
         (select_rows (map (isin elements) levels) joined) names attribute
       = OK recs
    /\ t = mkFrame tukey_final_columns
             (sort_by S (key_at 2)
                (map (tukey_final attribute (length recs))
                     (combine (seq 0 (length recs)) recs))).
Proof.
  unfold tukey. intros H.
  destruct (cs <- get_col df "significant" ;; mapM as_flag cs) as [mask|];
    [|discriminate].
  cbn [bind] in H.
  destruct (cs <- get_col (select_rows mask df) "metabolite" ;; mapM as_str cs)
    as [names|]; [|discriminate].
  cbn [bind] in H.
  destruct (select_columns (data sess) names) as [features|]; [|discriminate].
  cbn [bind] in H.
  destruct (select_columns (md sess) [attribute]) as [attr|]; [|discriminate].
  cbn [bind] in H.
  destruct (concat_axis1 features attr) as [joined|]; [|discriminate].
  cbn [bind] in H.
  destruct (get_col joined attribute) as [levels|] eqn:El; [|discriminate].
  cbn [bind] in H. cbv zeta in H.
  destruct (gen_pairwise_tukey P _ names attribute) as [recs|] eqn:Er;
    [|discriminate].
  cbn [bind] in H. rewrite add_bonferroni_to_tukeys_fresh in H.
  injection H as <-.
  exists joined, levels, names, recs. repeat split; assumption.
Qed.

(** ** Rows kept by a mask *)

Lemma filter_by_mask {A} (f : A -> bool) (l : list A) :
  map fst (filter (fun rb => snd rb) (combine l (map f l))) = filter f l.
Proof.
  induction l as [|a l IH]; simpl; [reflexivity|].
  destruct (f a); simpl; now rewrite IH.
Qed.

Lemma map_filter_comm {A B} (g : A -> B) (f : B -> bool) (l : list A) :
  map g (filter (fun a => f (g a)) l) = filter f (map g l).
Proof.
  induction l as [|a l IH]; simpl; [reflexivity|].
  destruct (f (g a)); simpl; now rewrite IH.
Qed.

Lemma get_col_select_rows (f : cell -> bool) (df : DataFrame)
  (name : string) (cs : list cell) :
  get_col df name = OK cs ->
  get_col (select_rows (map f cs) df) name = OK (filter f cs).
Proof.
  unfold get_col, select_rows, loc_of. cbn [columns rows].
  destruct (position name (columns df)) as [i|]; [|discriminate].
  destruct (occurrences name (columns df) =? 1)%nat; [|discriminate].
  cbn [bind]. intros H. injection H as <-.
  rewrite (map_map (at_pos i) f).
  rewrite (filter_by_mask (fun r => f (at_pos i r))).
  now rewrite map_filter_comm.
Qed.

Lemma mapM_as_str_inv (cs : list cell) (gs : list string) :
  mapM as_str cs = OK gs -> cs = map Str gs.
Proof.
  revert gs. induction cs as [|c cs IH]; simpl; intros gs H.
  - injection H as <-. reflexivity.
  - destruct c; try discriminate. cbn [as_str bind] in H.
    destruct (mapM as_str cs) as [gs'|]; [|discriminate].
    cbn [bind] in H. injection H as <-. simpl. now rewrite (IH gs' eq_refl).
Qed.

(** ** Levels and pairs *)

Lemma insert_string_perm (a : string) (l : list string) :
  Permutation (a :: l) (insert_string a l).
Proof.
  induction l as [|b l IH]; simpl.
  - apply Permutation_refl.
  - destruct (String.leb a b).
    + apply Permutation_refl.
    + eapply perm_trans; [apply perm_swap|]. apply perm_skip, IH.
Qed.

Lemma sort_strings_perm (l : list string) : Permutation l (sort_strings l).
Proof.
  induction l as [|a l IH]; simpl.
  - apply perm_nil.
  - eapply perm_trans; [apply perm_skip, IH|]. apply insert_string_perm.
Qed.

Lemma levels_nodup (gs : list string) :
  NoDup (sort_strings (nodup string_dec gs)).
Proof.
  eapply Permutation_NoDup; [apply sort_strings_perm|]. apply NoDup_nodup.
Qed.

Lemma levels_in (gs : list string) (g : string) :
  In g (sort_strings (nodup string_dec gs)) <-> In g gs.
Proof.
  split; intros H.
  - apply (nodup_In string_dec).
    eapply Permutation_in; [apply Permutation_sym, sort_strings_perm|exact H].
  - eapply Permutation_in; [apply sort_strings_perm|].
    apply (nodup_In string_dec), H.
Qed.

Lemma group_by_labels (ys : list Q) (gs : list string) :
  map fst (group_by ys gs) = sort_strings (nodup string_dec gs).
Proof. unfold group_by. rewrite map_map. apply map_id. Qed.

Lemma combinations2_head {A} (l : list A) (p : A * A) (ps : list (A * A)) :
  combinations2 l = p :: ps ->
  exists rest, l = fst p :: snd p :: rest.
Proof.
  destruct l as [|a [|b rest]]; simpl; try discriminate.
  intros H. injection H as <- _. exists rest. reflexivity.
Qed.

Lemma pairwise_tukey_row0 P df dv attribute cs c rest :
  get_col df attribute = OK cs ->
  pairwise_tukey P df dv attribute = OK (c :: rest) ->
  In (Str (c_A c)) cs /\ In (Str (c_B c)) cs /\ c_A c <> c_B c.
Proof.
  intros Hcs. unfold pairwise_tukey.
  destruct (numeric_col df dv) as [ys|]; [|discriminate].
  cbn [bind]. rewrite Hcs. cbn [bind].
  destruct (mapM as_str cs) as [gs|] eqn:Eg; [|discriminate].
  cbn [bind]. cbv zeta. intros H. injection H as H.
  apply mapM_as_str_inv in Eg. subst cs.
  destruct (combinations2 (group_by ys gs)) as [|p ps] eqn:Ep;
    [discriminate|].
  cbn [map] in H. injection H as <- _. cbn [c_A c_B].
  destruct (combinations2_head _ _ _ Ep) as [more Hg].
  pose proof (group_by_labels ys gs) as Hl. rewrite Hg in Hl. cbn [map] in Hl.
  pose proof (levels_nodup gs) as Hnd. rewrite <- Hl in Hnd.
  assert (Ha : In (fst (fst p)) gs).
  { apply levels_in. rewrite <- Hl. left. reflexivity. }
  assert (Hb : In (fst (snd p)) gs).
  { apply levels_in. rewrite <- Hl. right. left. reflexivity. }
  repeat split.
  - apply in_map, Ha.
  - apply in_map, Hb.
  - intros Heq. inversion Hnd as [|x l Hnin _]; subst.
    apply Hnin. left. symmetry. exact Heq.
Qed.

Lemma gen_pairwise_tukey_inv P df metabolites attribute recs :
  gen_pairwise_tukey P df metabolites attribute = OK recs ->
  Forall (fun mc => exists rest,
              pairwise_tukey P df (fst mc) attribute = OK (snd mc :: rest))
         recs.
Proof.
  unfold gen_pairwise_tukey. revert recs.
  induction metabolites as [|m ms IH]; simpl; intros recs H.
  - injection H as <-. constructor.
  - destruct (pairwise_tukey P df m attribute) as [[|c rest]|] eqn:Et;
      try discriminate.
    cbn [bind row0] in H.
    destruct (mapM _ ms) as [recs'|]; [|discriminate].
    cbn [bind] in H. injection H as <-.
    constructor; [|apply IH; reflexivity].
    exists rest. exact Et.
Qed.

Lemma isin_pair (e1 e2 a : string) :
  isin [Str e1; Str e2] (Str a) = true -> a = e1 \/ a = e2.
Proof.
  unfold isin. simpl. rewrite orb_false_r, orb_true_iff, !String.eqb_eq.
  tauto.
Qed.

Lemma Forall_sort_by {A} (S : Sorter) (key : A -> Q) (P : A -> Prop)
  (l : list A) :
  Forall P l -> Forall P (sort_by S key l).
Proof. apply Permutation_Forall, sort_by_perm. Qed.

Lemma length_sort_by {A} (S : Sorter) (key : A -> Q) (l : list A) :
  length (sort_by S key l) = length l.
Proof. symmetry. apply Permutation_length, sort_by_perm. Qed.


Lemma in_indexed {A} (l : list A) (x : nat * A) :
  In x (combine (seq 0 (length l)) l) -> In (snd x) l.
Proof. destruct x as [i a]. apply in_combine_r. Qed.

(** The two labels of a Tukey row are the two given levels, as stored in the
    [U100] fields. *)
Definition compares (t : DataFrame) (e1 e2 : string) (r : row) : Prop :=
  (field t "A" r = Str (U100 e1) /\ field t "B" r = Str (U100 e2))
  \/ (field t "A" r = Str (U100 e2) /\ field t "B" r = Str (U100 e1)).

(** C4. When the Tukey stage is called with two levels of the attribute,
    every row of its result compares these two levels: the samples are
    restricted to the two levels before the pairwise test runs, so no other
    level of the attribute can appear, however many the attribute has. *)
Theorem tukey_compares_requested_levels :
  forall (P : Pingouin) (S : Sorter) (sess : Session) (df : DataFrame)
         (attribute e1 e2 : string) (t : DataFrame),
    tukey P S sess df attribute [Str e1; Str e2] = OK t ->
    Forall (compares t e1 e2) (rows t).
Proof.
  intros P S sess df attribute e1 e2 t H.
  destruct (tukey_rows _ _ _ _ _ _ _ H)
    as [joined [levels [names [recs [Hl [Hr ->]]]]]].
  cbn [rows]. apply Forall_sort_by. apply Forall_forall.
  intros r Hr'. apply in_map_iff in Hr'. destruct Hr' as [x [<- Hx]].
  apply in_indexed in Hx.
  pose proof (gen_pairwise_tukey_inv _ _ _ _ _ Hr) as Hinv.
  rewrite Forall_forall in Hinv. destruct (Hinv _ Hx) as [rest Hpt].
  pose proof (get_col_select_rows (isin [Str e1; Str e2]) _ _ _ Hl) as Hc.
  destruct (pairwise_tukey_row0 _ _ _ _ _ _ _ Hc Hpt) as [Ha [Hb Hab]].
  apply filter_In in Ha. destruct Ha as [_ Ha]. apply isin_pair in Ha.
  apply filter_In in Hb. destruct Hb as [_ Hb]. apply isin_pair in Hb.
  unfold compares, field. cbn.
  destruct Ha as [Ha|Ha], Hb as [Hb|Hb]; rewrite Ha, Hb in *.
  - exfalso. apply Hab. reflexivity.
  - left. split; reflexivity.
  - right. split; reflexivity.
  - exfalso. apply Hab. reflexivity.
Qed.

(** ** Correction, significance and order of the result tables *)

Definition num_field (t : DataFrame) (name : string) (r : row) : Q :=
  match field t name r with
  | Num q => q
  | _ => 0
  end.


(** Every row's [sig] cell is the flag [pb < 0.05] of its [corr] cell. *)
Definition flagged_in (t : DataFrame) (corr sig : string) : Prop :=
  Forall (fun r => exists pb b,
              field t corr r = Num pb /\ field t sig r = Flag b
              /\ (b = true <-> pb < 5 # 100)
              /\ (pb == 5 # 100 -> b = false))
         (rows t).

Definition sorted_by (t : DataFrame) (name : string) : Prop :=
  StronglySorted (fun a b => num_field t name a <= num_field t name b)
                 (rows t).

Lemma below_alpha_spec (pb : Q) :
  exists b, below_alpha pb = Flag b
            /\ (b = true <-> pb < 5 # 100)
            /\ (pb == 5 # 100 -> b = false).
Proof.
  exists (Qltb pb alpha). split; [reflexivity|]. split.
  - apply Qltb_lt.
  - intros Heq. destruct (Qltb pb alpha) eqn:E; [|reflexivity].
    apply Qltb_lt in E. unfold alpha in E. rewrite Heq in E.
    exfalso. apply (Qlt_irrefl _ E).
Qed.





Lemma anova_flagged P S sess df attribute t :
  anova P S sess df attribute = OK t ->
  flagged_in t "p_bonferroni" "significant".
Proof.
  intros H. destruct (anova_rows _ _ _ _ _ _ H) as [recs ->].
  unfold flagged_in. cbn [rows].
  apply Forall_sort_by, Forall_forall. intros r Hr.
  apply in_map_iff in Hr. destruct Hr as [x [<- _]].
  destruct (below_alpha_spec
              (Qmin 1 (snd (fst (snd x)) * of_nat (length recs))))
    as [b [Hb Hs]].
  exists (Qmin 1 (snd (fst (snd x)) * of_nat (length recs))), b.
  split; [reflexivity|]. split; [exact Hb|exact Hs].
Qed.

Lemma tukey_flagged P S sess df attribute elements t :
  tukey P S sess df attribute elements = OK t ->
  flagged_in t "stats_p_bonferroni" "stats_significant".
Proof.
  intros H.
  destruct (tukey_rows _ _ _ _ _ _ _ H) as [j [l [ns [recs [_ [_ ->]]]]]].
  unfold flagged_in. cbn [rows].
  apply Forall_sort_by, Forall_forall. intros r Hr.
  apply in_map_iff in Hr. destruct Hr as [x [<- _]].
  destruct (below_alpha_spec
              (Qmin 1 (c_p (snd (snd x)) * of_nat (length recs))))
    as [b [Hb Hs]].
  exists (Qmin 1 (c_p (snd (snd x)) * of_nat (length recs))), b.
  split; [reflexivity|]. split; [exact Hb|exact Hs].
Qed.

Lemma ttest_flagged P S sess attribute groups paired t :
  gen_ttest_data P S sess attribute groups paired = OK t ->
  flagged_in t "p-bonf" "significance".
Proof.
  intros H.
  destruct (gen_ttest_data_rows _ _ _ _ _ _ _ H)
    as [df [xs [g0 [g1 [_ [_ [_ [_ ->]]]]]]]].
  unfold flagged_in. cbn [rows].
  apply Forall_sort_by, Forall_forall. intros r Hr.
  apply in_map_iff in Hr. destruct Hr as [x [<- _]].
  destruct (below_alpha_spec (Qmin 1 (p_val (snd x) * of_nat (length xs))))
    as [b [Hb Hs]].
  exists (Qmin 1 (p_val (snd x) * of_nat (length xs))), b.
  split; [reflexivity|]. split; [exact Hb|exact Hs].
Qed.

(** C2. In the tables of the ANOVA, Tukey and t-test pipelines the
    significance flag of a row is true exactly when its corrected p-value is
    strictly below 0.05; a corrected p-value equal to 0.05 is flagged not
    significant. *)
Theorem significant_iff_below_alpha :
  (forall P S sess df attribute t,
      anova P S sess df attribute = OK t ->
      flagged_in t "p_bonferroni" "significant")
  /\ (forall P S sess df attribute elements t,
         tukey P S sess df attribute elements = OK t ->
         flagged_in t "stats_p_bonferroni" "stats_significant")
  /\ (forall P S sess attribute groups paired t,
         gen_ttest_data P S sess attribute groups paired = OK t ->
         flagged_in t "p-bonf" "significance").
Proof.
  split; [|split].
  - apply anova_flagged.
  - apply tukey_flagged.
  - apply ttest_flagged.
Qed.

(** ** Order of the result tables *)


Lemma of_nat_pos (n : nat) : (0 < n)%nat -> 0 < of_nat n.
Proof.
  intros H. unfold of_nat, Qlt. simpl. lia.
Qed.








(** ** Worked examples *)

Definition numeric_frame (cols : list string) (rws : list (string * list Q))
  : DataFrame :=
  mkFrame cols (map (fun x => mkRow (Str (fst x)) (map Num (snd x))) rws).

Definition label_frame (cols : list string)
  (rws : list (string * list string)) : DataFrame :=
  mkFrame cols (map (fun x => mkRow (Str (fst x)) (map Str (snd x))) rws).

(** Nine samples at three sites, two features. *)
Definition site_session : Session :=
  mkSession
    (numeric_frame ["f1"; "f2"]
       [("s1", [1; 5]); ("s2", [2; 5]); ("s3", [3; 6]);
        ("s4", [20; 1]); ("s5", [21; 1]); ("s6", [22; 2]); ("s7", [23; 2]);
        ("s8", [40; 30]); ("s9", [41; 31])])
    (label_frame ["ATTRIBUTE_site"]
       [("s1", ["a"]); ("s2", ["a"]); ("s3", ["a"]);
        ("s4", ["b"]); ("s5", ["b"]); ("s6", ["b"]); ("s7", ["b"]);
        ("s8", ["c"]); ("s9", ["c"])])
    "site" [Str "a"; Str "b"].


Definition frame_or_empty (r : result DataFrame) : DataFrame :=
  match r with
  | OK t => t
  | Error _ => mkFrame [] []
  end.

Definition site_anova : DataFrame :=
  frame_or_empty
    (anova demo_pingouin stable_sorter site_session (data site_session)
       "ATTRIBUTE_site").

Definition site_tukey : DataFrame :=
  frame_or_empty
    (tukey demo_pingouin stable_sorter site_session site_anova
       "ATTRIBUTE_site" [Str "a"; Str "b"]).

Definition site_ttest : DataFrame :=
  frame_or_empty
    (gen_ttest_data demo_pingouin stable_sorter site_session
       "ATTRIBUTE_site" [Str "a"; Str "b"] false).

Lemma site_anova_ok :
  anova demo_pingouin stable_sorter site_session (data site_session)
    "ATTRIBUTE_site" = OK site_anova.
Proof. vm_compute. reflexivity. Defined.

Lemma site_tukey_ok :
  tukey demo_pingouin stable_sorter site_session site_anova
    "ATTRIBUTE_site" [Str "a"; Str "b"] = OK site_tukey.
Proof. vm_compute. reflexivity. Defined.

Lemma site_ttest_ok :
  gen_ttest_data demo_pingouin stable_sorter site_session
    "ATTRIBUTE_site" [Str "a"; Str "b"] false = OK site_ttest.
Proof. vm_compute. reflexivity. Defined.


Lemma significant_iff_below_alpha_witness :
  flagged_in site_anova "p_bonferroni" "significant"
  /\ flagged_in site_tukey "stats_p_bonferroni" "stats_significant"
  /\ flagged_in site_ttest "p-bonf" "significance".
Proof.
  split; [|split].
  - exact (proj1 significant_iff_below_alpha _ _ _ _ _ _ site_anova_ok).
  - exact (proj1 (proj2 significant_iff_below_alpha) _ _ _ _ _ _ _
             site_tukey_ok).
  - exact (proj2 (proj2 significant_iff_below_alpha) _ _ _ _ _ _ _
             site_ttest_ok).
Defined.


(** The attribute of [site_session] has three levels; the Tukey table for
    the levels "a" and "b" has a row per significant feature, each on these
    two levels. *)
Lemma tukey_compares_requested_levels_witness :
  length (rows site_tukey) = 2%nat
  /\ Forall (compares site_tukey "a" "b") (rows site_tukey).
Proof.
  split; [reflexivity|].
  exact (tukey_compares_requested_levels _ _ _ _ _ _ _ _ site_tukey_ok).
Defined.


(** The order of rows with equal raw p-values depends on the sorting
    routine: two implementations of the interface give two tables. *)
Lemma tie_order_depends_on_the_sorter :
  add_bonferroni_to_anova stable_sorter
    (frame_of_records anova_columns
       (map anova_record [("f1", 1 # 2, 1); ("f2", 1 # 2, 2)]))
  <> add_bonferroni_to_anova reversing_sorter
       (frame_of_records anova_columns
          (map anova_record [("f1", 1 # 2, 1); ("f2", 1 # 2, 2)])).
Proof. vm_compute. discriminate. Qed.

(** ** Which t-test is run *)

Lemma mapM_ext_in {A B} (f g : A -> result B) (l : list A) :
  (forall a, In a l -> f a = g a) -> mapM f l = mapM g l.
Proof.
  induction l as [|a l IH]; intros H; simpl; [reflexivity|].
  rewrite (H a (or_introl eq_refl)), IH; [reflexivity|].
  intros b Hb. apply H. right. exact Hb.
Qed.

Lemma select_test_unequal (paired : bool) (nx ny : nat) :
  nx <> ny -> select_test paired nx ny = select_test false nx ny.
Proof.
  intros H. unfold select_test. apply Nat.eqb_neq in H. rewrite H.
  now rewrite andb_false_r.
Qed.

Lemma select_test_unpaired (nx ny : nat) :
  (2 <= ny)%nat ->
  select_test false nx ny = if (nx =? ny)%nat then StudentT else WelchT.
Proof.
  intros H. unfold select_test. cbn [andb].
  destruct (ny =? 1)%nat eqn:E; [apply Nat.eqb_eq in E; lia|reflexivity].
Qed.

(** C5 (amended). The code has no check of the group sizes and no error for
    them: the two samples and the paired flag go to pingouin's t-test as
    they are.  When the two groups differ in size the paired invocation
    gives what the unpaired invocation gives. *)
Theorem paired_with_unequal_groups_runs_unpaired :
  forall (P : Pingouin) (S : Sorter) (sess : Session) (attribute : string)
         (groups : list cell),
    (forall df col gs,
        concat_axis1 (data sess) (md sess) = OK df ->
        In col (columns (data sess)) ->
        feature_groups df attribute groups col = OK gs ->
        length (fst gs) <> length (snd gs)) ->
    gen_ttest_data P S sess attribute groups true
    = gen_ttest_data P S sess attribute groups false.
Proof.
  intros P S sess attribute groups Hsize. unfold gen_ttest_data.
  destruct (concat_axis1 (data sess) (md sess)) as [df|] eqn:Edf;
    [|reflexivity].
  cbn [bind].
  rewrite (mapM_ext_in
             (ttest_feature P df attribute groups true)
             (ttest_feature P df attribute groups false));
    [reflexivity|].
  intros col Hcol. unfold ttest_feature.
  destruct (feature_groups df attribute groups col) as [gs|] eqn:Eg;
    [|reflexivity].
  cbn [bind]. unfold pg_ttest.
  rewrite (select_test_unequal true); [reflexivity|].
  eapply Hsize; [reflexivity|exact Hcol|exact Eg].
Qed.

Lemma site_groups_sizes :
  forall df col gs,
    concat_axis1 (data site_session) (md site_session) = OK df ->
    In col (columns (data site_session)) ->
    feature_groups df "ATTRIBUTE_site" [Str "a"; Str "b"] col = OK gs ->
    length (fst gs) <> length (snd gs).
Proof.
  intros df col gs Hdf Hcol Hgs.
  vm_compute in Hdf. injection Hdf as <-.
  destruct Hcol as [<-|[<-|[]]]; vm_compute in Hgs; injection Hgs as <-;
    discriminate.
Defined.

Lemma paired_with_unequal_groups_runs_unpaired_witness :
  gen_ttest_data demo_pingouin stable_sorter site_session
    "ATTRIBUTE_site" [Str "a"; Str "b"] true
  = gen_ttest_data demo_pingouin stable_sorter site_session
      "ATTRIBUTE_site" [Str "a"; Str "b"] false.
Proof.
  exact (paired_with_unequal_groups_runs_unpaired demo_pingouin
           stable_sorter site_session "ATTRIBUTE_site" [Str "a"; Str "b"]
           site_groups_sizes).
Defined.

(** C5 (counterexample). A paired invocation on groups of 3 and 4 samples
    returns a table. *)
Lemma paired_3_vs_4_returns_a_table :
  exists df t,
    concat_axis1 (data site_session) (md site_session) = OK df
    /\ feature_groups df "ATTRIBUTE_site" [Str "a"; Str "b"] "f1"
       = OK ([1; 2; 3], [20; 21; 22; 23])
    /\ gen_ttest_data demo_pingouin stable_sorter site_session
         "ATTRIBUTE_site" [Str "a"; Str "b"] true = OK t
    /\ gen_ttest_data demo_pingouin stable_sorter site_session
         "ATTRIBUTE_site" [Str "a"; Str "b"] true
       <> Error (Raised "UnequalGroupSizeError").
Proof.
  eexists. eexists. split; [vm_compute; reflexivity|].
  split; [vm_compute; reflexivity|].
  split; [vm_compute; reflexivity|].
  vm_compute. discriminate.
Qed.

(** C6 (amended). An unpaired invocation runs pingouin's default
    two-sample test on every feature: for groups of at least two samples
    this is Welch's test when the two groups differ in size and Student's
    test with pooled variance when they have the same size. *)
Theorem unpaired_test_follows_group_sizes :
  forall (P : Pingouin) (df : DataFrame) (attribute : string)
         (groups : list cell) (col : string) (gs : list Q * list Q),
    feature_groups df attribute groups col = OK gs ->
    (1 <= length (fst gs))%nat ->
    (2 <= length (snd gs))%nat ->
    ttest_feature P df attribute groups false col
    = OK (feature_frame
            (col,
             ttest_kernel P
               (if (length (fst gs) =? length (snd gs))%nat
                then StudentT else WelchT)
               (fst gs) (snd gs))).
Proof.
  intros P df attribute groups col gs Hgs H1 H2.
  unfold ttest_feature. rewrite Hgs. cbn [bind]. unfold pg_ttest.
  destruct (length (fst gs)) as [|nx] eqn:Ex; [lia|].
  destruct (length (snd gs)) as [|ny] eqn:Ey; [lia|].
  cbn [Nat.eqb orb]. rewrite select_test_unpaired by lia.
  reflexivity.
Qed.

(** Six samples in two groups of three with different spreads. *)
Definition balanced_session : Session :=
  mkSession
    (numeric_frame ["f1"]
       [("s1", [1]); ("s2", [2]); ("s3", [3]);
        ("s4", [10]); ("s5", [20]); ("s6", [30])])
    (label_frame ["ATTRIBUTE_group"]
       [("s1", ["a"]); ("s2", ["a"]); ("s3", ["a"]);
        ("s4", ["b"]); ("s5", ["b"]); ("s6", ["b"])])
    "group" [Str "a"; Str "b"].

Definition balanced_joined : DataFrame :=
  frame_or_empty
    (concat_axis1 (data balanced_session) (md balanced_session)).

Lemma balanced_groups :
  feature_groups balanced_joined "ATTRIBUTE_group" [Str "a"; Str "b"] "f1"
  = OK ([1; 2; 3], [10; 20; 30]).
Proof. vm_compute. reflexivity. Defined.

Lemma unpaired_test_follows_group_sizes_witness :
  ttest_feature demo_pingouin balanced_joined "ATTRIBUTE_group"
    [Str "a"; Str "b"] false "f1"
  = OK (feature_frame
          ("f1", ttest_kernel demo_pingouin StudentT [1; 2; 3] [10; 20; 30])).
Proof.
  refine (unpaired_test_follows_group_sizes demo_pingouin balanced_joined
            "ATTRIBUTE_group" [Str "a"; Str "b"] "f1" _ balanced_groups _ _);
    simpl; lia.
Defined.

(** C6 (counterexample). An unpaired invocation on two groups of three
    samples with unequal variances runs Student's test, not Welch's: the two
    differ already in the degrees of freedom. *)
Lemma unpaired_equal_sizes_is_not_welch :
  concat_axis1 (data balanced_session) (md balanced_session)
  = OK balanced_joined
  /\ feature_groups balanced_joined "ATTRIBUTE_group" [Str "a"; Str "b"] "f1"
     = OK ([1; 2; 3], [10; 20; 30])
  /\ select_test false 3 3 = StudentT
  /\ ttest_feature demo_pingouin balanced_joined "ATTRIBUTE_group"
       [Str "a"; Str "b"] false "f1"
     <> OK (feature_frame
              ("f1",
               ttest_kernel demo_pingouin WelchT [1; 2; 3] [10; 20; 30])).
Proof.
  split; [vm_compute; reflexivity|].
  split; [exact balanced_groups|].
  split; [reflexivity|].
  vm_compute. discriminate.
Qed.

(** ** The bracket symbol of the boxplot *)

Lemma cell_eqb_Str (c : cell) (s : string) :
  cell_eqb c (Str s) = true -> c = Str s.
Proof.
  destruct c; simpl; try discriminate.
  intros H. apply String.eqb_eq in H. now subst.
Qed.

Lemma ttest_boxplot_symbol_source df_ttest metabolite s :
  ttest_boxplot_symbol df_ttest metabolite = OK s ->
  exists r pb,
    In r (rows df_ttest) /\ label r = Str metabolite
    /\ field df_ttest "p-bonf" r = Num pb
    /\ s = bracket_symbol pb.
Proof.
  unfold ttest_boxplot_symbol, loc_cell, loc_of, field. intros H.
  destruct (position "p-bonf" (columns df_ttest)) as [i|]; [|discriminate].
  destruct (occurrences "p-bonf" (columns df_ttest) =? 1)%nat;
    [|discriminate].
  cbn [bind] in H.
  destruct (filter _ (rows df_ttest)) as [|r [|r' l]] eqn:Ef;
    try discriminate.
  cbn [bind] in H.
  destruct (at_pos i r) as [| pb | | |] eqn:Ec; try discriminate.
  cbn [as_num bind] in H. injection H as <-.
  assert (Hin : In r (filter (fun r0 => cell_eqb (label r0) (Str metabolite))
                             (rows df_ttest))).
  { rewrite Ef. left. reflexivity. }
  apply filter_In in Hin. destruct Hin as [Hin Hl].
  exists r, pb. repeat split; [exact Hin|apply cell_eqb_Str, Hl|exact Ec].
Qed.

(** C7. The bracket symbol is "ns" for [p >= 0.05], "*" for
    [0.01 <= p < 0.05], "**" for [0.001 <= p < 0.01] and "***" for
    [p < 0.001], and the [p] that the boxplot uses is the corrected p-value
    ("p-bonf") of the feature's row in the t-test table. *)
Theorem bracket_symbol_thresholds :
  (forall p : Q,
      (5 # 100 <= p -> bracket_symbol p = "ns")
      /\ (1 # 100 <= p -> p < 5 # 100 -> bracket_symbol p = "*")
      /\ (1 # 1000 <= p -> p < 1 # 100 -> bracket_symbol p = "**")
      /\ (p < 1 # 1000 -> bracket_symbol p = "***"))
  /\ (forall df_ttest metabolite s,
         ttest_boxplot_symbol df_ttest metabolite = OK s ->
         exists r pb,
           In r (rows df_ttest) /\ label r = Str metabolite
           /\ field df_ttest "p-bonf" r = Num pb
           /\ s = bracket_symbol pb).
Proof.
  split; [|apply ttest_boxplot_symbol_source].
  intros p. unfold bracket_symbol. repeat split.
  - intros H. apply Qgeb_le in H. now rewrite H.
  - intros H1 H2. apply Qgeb_le in H1. apply Qgeb_false in H2.
    now rewrite H2, H1.
  - intros H1 H2. apply Qgeb_le in H1. apply Qgeb_false in H2.
    assert (H3 : Qgeb p (5 # 100) = false).
    { apply Qgeb_false. eapply Qlt_trans; [exact (proj1 (Qgeb_false _ _) H2)|].
      reflexivity. }
    now rewrite H3, H2, H1.
  - intros H.
    assert (H2 : Qgeb p (1 # 100) = false).
    { apply Qgeb_false. eapply Qlt_trans; [exact H|reflexivity]. }
    assert (H3 : Qgeb p (5 # 100) = false).
    { apply Qgeb_false. eapply Qlt_trans; [exact H|reflexivity]. }
    apply Qgeb_false in H. now rewrite H3, H2, H.
Qed.

Lemma bracket_symbol_thresholds_witness :
  bracket_symbol (5 # 100) = "ns"
  /\ bracket_symbol (1 # 100) = "*"
  /\ bracket_symbol (1 # 1000) = "**"
  /\ bracket_symbol (1 # 2000) = "***"
  /\ exists r pb,
       In r (rows site_ttest) /\ label r = Str "f2"
       /\ field site_ttest "p-bonf" r = Num pb
       /\ "ns" = bracket_symbol pb.
Proof.
  destruct bracket_symbol_thresholds as [Hsym Hsrc].
  split; [apply (proj1 (Hsym (5 # 100))); unfold Qle; simpl; lia|].
  split; [apply (proj1 (proj2 (Hsym (1 # 100))));
          [unfold Qle|unfold Qlt]; simpl; lia|].
  split; [apply (proj1 (proj2 (proj2 (Hsym (1 # 1000)))));
          [unfold Qle|unfold Qlt]; simpl; lia|].
  split; [apply (proj2 (proj2 (proj2 (Hsym (1 # 2000)))));
          unfold Qlt; simpl; lia|].
  apply (Hsrc site_ttest "f2" "ns"). vm_compute. reflexivity.
Defined.

(** ** Imputation of missing values *)














Definition spotty_table : DataFrame :=
  numeric_frame ["s1"; "s2"; "s3"]
    [("m1", [0; 5; 7]); ("m2", [3; 0; 0]); ("m3", [4; 6; 9 # 2])].



(** ** Samples and blanks *)

Lemma in_select_rows (mask : list bool) (df : DataFrame) (r : row) :
  In r (rows (select_rows mask df)) -> In r (rows df).
Proof.
  unfold select_rows. cbn [rows]. intros H.
  apply in_map_iff in H. destruct H as [[r' b] [<- H]].
  apply filter_In in H. destruct H as [H _].
  apply in_combine_l in H. exact H.
Qed.

Lemma labels_where_in (df : DataFrame) (column : string) (value : cell)
  (labels : list cell) (l : cell) :
  labels_where df column value = OK labels ->
  In l labels -> exists r, In r (rows df) /\ label r = l.
Proof.
  unfold labels_where. destruct (get_col df column) as [cs|]; [|discriminate].
  cbn [bind]. intros H Hl. injection H as <-.
  apply in_map_iff in Hl. destruct Hl as [r [<- Hr]].
  exists r. split; [eapply in_select_rows, Hr|reflexivity].
Qed.

Lemma columns_of_names (ft : DataFrame) (labels : list cell)
  (t : DataFrame) :
  columns_of ft labels = OK t -> labels = map Str (columns t).
Proof.
  unfold columns_of, select_columns.
  destruct (mapM as_str labels) as [names|] eqn:En; [|discriminate].
  cbn [bind]. destruct (mapM (loc_of ft) names); [|discriminate].
  cbn [bind]. intros H. injection H as <-. cbn [columns].
  apply mapM_as_str_inv, En.
Qed.

Lemma cell_eqb_Str_l (s : string) (c : cell) :
  cell_eqb (Str s) c = true -> c = Str s.
Proof.
  destruct c; simpl; try discriminate.
  intros H. apply String.eqb_eq in H. now subst.
Qed.

Lemma non_samples_md_label (md_ samples : DataFrame) (r : row) (c : string) :
  In r (rows (non_samples_md md_ samples)) ->
  label r = Str c ->
  ~ In c (columns samples).
Proof.
  unfold non_samples_md, loc_rows. cbn [rows]. intros Hr Hl Hc.
  apply in_flat_map in Hr. destruct Hr as [l [Hlin Hr]].
  apply filter_In in Hr. destruct Hr as [_ He].
  rewrite Hl in He. apply cell_eqb_Str_l in He. subst l.
  apply filter_In in Hlin. destruct Hlin as [_ Hn].
  unfold not_in_columns in Hn. apply negb_true_iff in Hn.
  assert (Hex : existsb (fun x => cell_eqb (Str c) (Str x)) (columns samples)
                = true).
  { apply existsb_exists. exists c. split; [exact Hc|].
    simpl. apply String.eqb_refl. }
  congruence.
Qed.

(** C10. The blanks and the samples of the data preparation have no column
    in common: the blanks are columns named by metadata rows that are not
    among the columns of the samples. *)
Theorem blanks_and_samples_disjoint :
  forall (ft md_ : DataFrame) (sample_column : string) (sample_row : cell)
         (blank_column : string) (blank_row : cell)
         (samples blanks : DataFrame),
    select_samples ft md_ sample_column sample_row = OK samples ->
    select_blanks ft md_ samples blank_column blank_row = OK blanks ->
    forall c, In c (columns blanks) -> ~ In c (columns samples).
Proof.
  intros ft md_ sc sr bc br samples blanks _ Hb c Hc.
  unfold select_blanks in Hb.
  destruct (labels_where (non_samples_md md_ samples) bc br) as [labels|]
    eqn:El; [|discriminate].
  cbn [bind] in Hb. apply columns_of_names in Hb.
  assert (Hin : In (Str c) labels) by (rewrite Hb; apply in_map, Hc).
  destruct (labels_where_in _ _ _ _ _ El Hin) as [r [Hr Hl]].
  eapply non_samples_md_label; eassumption.
Qed.

Definition prep_ft : DataFrame :=
  numeric_frame ["s1"; "s2"; "b1"; "b2"; "p1"]
    [("m1", [10; 12; 1; 0; 11]); ("m2", [0; 7; 6; 5; 3])].

Definition prep_md : DataFrame :=
  label_frame ["ATTRIBUTE_type"]
    [("s1", ["sample"]); ("s2", ["sample"]); ("b1", ["blank"]);
     ("b2", ["blank"]); ("p1", ["pool"])].

Definition prep_samples : DataFrame :=
  frame_or_empty (select_samples prep_ft prep_md "ATTRIBUTE_type" (Str "sample")).

Definition prep_blanks : DataFrame :=
  frame_or_empty
    (select_blanks prep_ft prep_md prep_samples "ATTRIBUTE_type" (Str "blank")).

Lemma blanks_and_samples_disjoint_witness :
  columns prep_samples = ["s1"; "s2"]
  /\ columns prep_blanks = ["b1"; "b2"]
  /\ forall c, In c (columns prep_blanks) -> ~ In c (columns prep_samples).
Proof.
  split; [reflexivity|]. split; [reflexivity|].
  apply (blanks_and_samples_disjoint prep_ft prep_md
           "ATTRIBUTE_type" (Str "sample") "ATTRIBUTE_type" (Str "blank")).
  - vm_compute. reflexivity.
  - vm_compute. reflexivity.
Defined.

(** ** The cache and the session *)




(** [site_session] with the sample "s3" moved to the site "b". *)
Definition relabelled_session : Session :=
  mkSession (data site_session)
    (label_frame ["ATTRIBUTE_site"]
       [("s1", ["a"]); ("s2", ["a"]); ("s3", ["b"]);
        ("s4", ["b"]); ("s5", ["b"]); ("s6", ["b"]); ("s7", ["b"]);
        ("s8", ["c"]); ("s9", ["c"])])
    "site" [Str "a"; Str "b"].

(** The ANOVA function reads the metadata of the session, which is not
    among its arguments: the same arguments give two tables. *)
Lemma anova_depends_on_the_session :
  exists t1 t2,
    anova demo_pingouin stable_sorter site_session (data site_session)
      "ATTRIBUTE_site" = OK t1
    /\ anova demo_pingouin stable_sorter relabelled_session
         (data site_session) "ATTRIBUTE_site" = OK t2
    /\ t1 <> t2.
Proof.
  eexists. eexists.
  split; [vm_compute; reflexivity|].
  split; [vm_compute; reflexivity|].
  discriminate.
Qed.

(** * The figures and the remaining paths *)

(** ** Figure data ([src/anova.py], [src/ttest.py])

    The figures are modelled by the data they are given: coordinates, texts
    and axis ranges.  [log] stands for [np.log]. *)

Definition flag_col (df : DataFrame) (name : string) : result (list bool) :=
  cs <- get_col df name ;; mapM as_flag cs.

Definition string_col (df : DataFrame) (name : string)
  : result (list string) :=
  cs <- get_col df name ;; mapM as_str cs.

Record trace : Type := mkTrace {
  trace_x : list Q;
  trace_y : list Q;
  trace_text : list string
}.


(** [get_tukey_volcano_plot] *)
Definition get_tukey_volcano_plot (log : Q -> Q) (df : DataFrame)
  : result (trace * trace) :=
  significant <- flag_col df "stats_significant" ;;
  let rest := select_rows (map negb significant) df in
  x0 <- numeric_col rest "diff" ;;
  y0 <- numeric_col rest "stats_p" ;;
  let hits := select_rows significant df in
  x1 <- numeric_col hits "diff" ;;
  y1 <- numeric_col hits "stats_p" ;;
  names <- string_col df "stats_metabolite" ;;
  OK (mkTrace x0 (map (fun p => - log p) y0) [],
      mkTrace x1 (map (fun p => - log p) y1) (firstn 5 names)).

Definition Qmaximum (q : Q) (l : list Q) : Q := fold_right Qmax q l.

Record annotation : Type := mkAnnotation {
  ann_x : Q;
  ann_y : Q;
  ann_text : cell
}.

Record ttest_figure : Type := mkTtestFigure {
  points_x : list Q;
  points_y : list Q;
  points_color : list bool;
  hover_name : list cell;
  xaxis_range : Q * Q;
  annotations : list annotation
}.

(** [series[i]] by position. *)
Definition at_index {A} (l : list A) (i : nat) : result A :=
  match nth_error l i with
  | Some a => OK a
  | None => Error IndexError
  end.

Definition count_true (l : list bool) : nat := length (filter (fun b => b) l).

(** [plot_ttest].  The loop annotates the rows at the positions
    [0 .. k-1], where [k] is the number of significant rows.  The title
    reads row 0, which an empty table does not have. *)
Definition plot_ttest (log : Q -> Q) (df : DataFrame) : result ttest_figure :=
  t <- numeric_col df "T" ;;
  pb <- numeric_col df "p-bonf" ;;
  significance <- flag_col df "significance" ;;
  match t with
  | [] => Error IndexError
  | t0 :: ts =>
      let lo := Qminimum t0 ts in
      let hi := Qmaximum t0 ts in
      let x_padding := Qabs_diff hi lo / 5 in
      anns <- mapM (fun i =>
                      x <- at_index t i ;;
                      y <- at_index (map (fun p => - log p) pb) i ;;
                      name <- at_index (map label (rows df)) i ;;
                      OK (mkAnnotation (x + (hi - lo) / 12) y name))
                   (seq 0 (count_true significance)) ;;
      OK (mkTtestFigure t (map (fun p => - log p) pb) significance
            (map label (rows df))
            (lo - x_padding, hi + x_padding) anns)
  end.

(** [anova.set_index("metabolite")._get_value(metabolite, "p")] *)
Definition boxplot_p_value (anova_ : DataFrame) (metabolite : string)
  : result cell :=
  indexed <- set_index "metabolite" anova_ ;;
  loc_cell indexed (Str metabolite) "p".

(** [get_metabolite_boxplot]: the p-value shown in the title, the frame
    that is plotted and the title of the x axis.  [anova_attribute] is
    [st.session_state.anova_attribute]. *)
Definition get_metabolite_boxplot (sess : Session) (anova_attribute : string)
  (anova_ : DataFrame) (metabolite : string)
  : result (cell * DataFrame * string) :=
  let attribute := ("ATTRIBUTE_" ++ anova_attribute)%string in
  p_value <- boxplot_p_value anova_ metabolite ;;
  joined <- concat_axis1 (data sess) (md sess) ;;
  df <- select_columns joined [attribute; metabolite] ;;
  OK (p_value, df, strip_attribute attribute).

(** ** Significant rows come first *)

Lemma filter_none {A} (flag : A -> bool) (l : list A) :
  (forall b, In b l -> flag b = false) -> filter flag l = [].
Proof.
  induction l as [|b l IH]; intros H; simpl; [reflexivity|].
  rewrite (H b (or_introl eq_refl)). apply IH.
  intros c Hc. apply H. right. exact Hc.
Qed.

Lemma sorted_filter_prefix {A} (key : A -> Q) (flag : A -> bool)
  (l : list A) :
  (forall a b, In a l -> In b l -> key a <= key b ->
               flag b = true -> flag a = true) ->
  StronglySorted (fun a b => key a <= key b) l ->
  filter flag l = firstn (length (filter flag l)) l.
Proof.
  intros Hmono Hs. induction Hs as [|a l Hs IH Ha].
  - reflexivity.
  - simpl. destruct (flag a) eqn:Ea.
    + simpl. f_equal. apply IH.
      intros x y Hx Hy. apply Hmono; right; assumption.
    + rewrite filter_none; [reflexivity|].
      intros b Hb. destruct (flag b) eqn:Eb; [|reflexivity].
      rewrite Forall_forall in Ha.
      assert (flag a = true).
      { apply (Hmono a b); [left; reflexivity|right; exact Hb
                            |apply Ha, Hb|exact Eb]. }
      congruence.
Qed.

Definition flag_at (i : nat) (r : row) : bool :=
  match at_pos i r with
  | Flag b => b
  | _ => false
  end.

Lemma mapM_as_flag_rows (i : nat) (R : list row) :
  Forall (fun r => exists b, at_pos i r = Flag b) R ->
  mapM as_flag (map (at_pos i) R) = OK (map (flag_at i) R).
Proof.
  induction 1 as [|r R [b Hb] _ IH]; simpl; [reflexivity|].
  unfold flag_at at 1. rewrite Hb. cbn [as_flag bind]. rewrite IH.
  reflexivity.
Qed.

Lemma flag_col_rows (cols : list string) (R : list row) (name : string)
  (i : nat) :
  loc_of (mkFrame cols []) name = OK i ->
  Forall (fun r => exists b, at_pos i r = Flag b) R ->
  flag_col (mkFrame cols R) name = OK (map (flag_at i) R).
Proof.
  intros Hloc HR. unfold flag_col, get_col, loc_of in *. cbn [columns] in *.
  destruct (position name cols); [|discriminate].
  destruct (occurrences name cols =? 1)%nat; [|discriminate].
  injection Hloc as ->. cbn [bind rows]. apply mapM_as_flag_rows, HR.
Qed.

Lemma rows_select_rows_map (f : row -> bool) (cols : list string)
  (R : list row) :
  rows (select_rows (map f R) (mkFrame cols R)) = filter f R.
Proof. unfold select_rows. cbn [rows]. apply filter_by_mask. Qed.

Lemma count_true_map {A} (f : A -> bool) (l : list A) :
  count_true (map f l) = length (filter f l).
Proof.
  unfold count_true. induction l as [|a l IH]; simpl; [reflexivity|].
  destruct (f a); simpl; now rewrite IH.
Qed.

(** The rows that the mask of the column [sig] selects are the first rows
    of the table. *)
Definition significant_first (t : DataFrame) (sig : string) : Prop :=
  exists mask,
    flag_col t sig = OK mask
    /\ rows (select_rows mask t) = firstn (count_true mask) (rows t).

Lemma of_nat_nonneg (n : nat) : 0 <= of_nat n.
Proof. unfold of_nat, Qle. simpl. lia. Qed.

Lemma bonf_flag_mono (pa pb : Q) (n : nat) :
  pa <= pb ->
  Qltb (Qmin 1 (pb * of_nat n)) alpha = true ->
  Qltb (Qmin 1 (pa * of_nat n)) alpha = true.
Proof.
  intros Hle Hb. apply Qltb_lt in Hb. apply Qltb_lt.
  eapply Qle_lt_trans; [|exact Hb].
  apply Q.min_le_compat_l.
  apply Qmult_le_compat_r; [exact Hle|apply of_nat_nonneg].
Qed.

Lemma significant_first_sorted (S : Sorter) (cols : list string)
  (name : string) (i k : nat) {X} (g : X -> row) (L : list X) :
  loc_of (mkFrame cols []) name = OK i ->
  (forall x, exists b, at_pos i (g x) = Flag b) ->
  (forall x y, key_at k (g x) <= key_at k (g y) ->
               flag_at i (g y) = true -> flag_at i (g x) = true) ->
  significant_first (mkFrame cols (sort_by S (key_at k) (map g L))) name.
Proof.
  intros Hloc Hflag Hmono.
  exists (map (flag_at i) (sort_by S (key_at k) (map g L))). split.
  - apply flag_col_rows; [exact Hloc|].
    apply Forall_sort_by, Forall_forall. intros r Hr.
    apply in_map_iff in Hr. destruct Hr as [x [<- _]]. apply Hflag.
  - rewrite rows_select_rows_map, count_true_map. cbn [rows].
    apply (sorted_filter_prefix (key_at k)); [|apply sort_by_sorted].
    intros a b Ha Hb.
    apply (Permutation_in _ (Permutation_sym (sort_by_perm S _ _ _))) in Ha.
    apply (Permutation_in _ (Permutation_sym (sort_by_perm S _ _ _))) in Hb.
    apply in_map_iff in Ha. destruct Ha as [x [<- _]].
    apply in_map_iff in Hb. destruct Hb as [y [<- _]].
    apply Hmono.
Qed.

(** X1. In the tables of the ANOVA, Tukey and t-test pipelines the
    significant rows are the first rows: the mask of the significance
    column selects a prefix of the table. *)
Theorem significant_rows_come_first :
  (forall P S sess df attribute t,
      anova P S sess df attribute = OK t ->
      significant_first t "significant")
  /\ (forall P S sess df attribute elements t,
         tukey P S sess df attribute elements = OK t ->
         significant_first t "stats_significant")
  /\ (forall P S sess attribute groups paired t,
         gen_ttest_data P S sess attribute groups paired = OK t ->
         significant_first t "significance").
Proof.
  split; [|split].
  - intros P S sess df attribute t H.
    destruct (anova_rows _ _ _ _ _ _ H) as [recs ->].
    apply (significant_first_sorted S _ "significant" 3 1);
      [reflexivity|intros x; eexists; reflexivity|].
    intros x y. cbn. apply bonf_flag_mono.
  - intros P S sess df attribute elements t H.
    destruct (tukey_rows _ _ _ _ _ _ _ H) as [j [l [ns [recs [_ [_ ->]]]]]].
    apply (significant_first_sorted S _ "stats_significant" 4 2);
      [reflexivity|intros x; eexists; reflexivity|].
    intros x y. cbn. apply bonf_flag_mono.
  - intros P S sess attribute groups paired t H.
    destruct (gen_ttest_data_rows _ _ _ _ _ _ _ H)
      as [df [xs [g0 [g1 [_ [_ [_ [_ ->]]]]]]]].
    apply (significant_first_sorted S _ "significance" 9 8);
      [reflexivity|intros x; eexists; reflexivity|].
    intros x y. cbn. intros Hle Hy. apply Qltb_lt in Hy. apply Qltb_lt.
    eapply Qle_lt_trans; eassumption.
Qed.

Lemma significant_rows_come_first_witness :
  significant_first site_anova "significant"
  /\ significant_first site_tukey "stats_significant"
  /\ significant_first site_ttest "significance".
Proof.
  split; [|split].
  - exact (proj1 significant_rows_come_first _ _ _ _ _ _ site_anova_ok).
  - exact (proj1 (proj2 significant_rows_come_first) _ _ _ _ _ _ _
             site_tukey_ok).
  - exact (proj2 (proj2 significant_rows_come_first) _ _ _ _ _ _ _
             site_ttest_ok).
Defined.

(** ** One row per feature *)

Lemma map_snd_indexed {A} (l : list A) :
  map snd (combine (seq 0 (length l)) l) = l.
Proof.
  generalize 0%nat. induction l as [|a l IH]; intros n; simpl;
    [reflexivity|now rewrite IH].
Qed.

Lemma map_indexed {A B} (h : A -> B) (f : nat * A -> B) (l : list A) :
  (forall x, f x = h (snd x)) ->
  map f (combine (seq 0 (length l)) l) = map h l.
Proof.
  intros H. rewrite (map_ext f (fun x => h (snd x)) H).
  rewrite <- (map_map snd h). now rewrite map_snd_indexed.
Qed.

Lemma Permutation_map_sort_by {A B} (S : Sorter) (key : A -> Q)
  (f : A -> B) (l : list A) :
  Permutation (map f (sort_by S key l)) (map f l).
Proof. apply Permutation_map, Permutation_sym, sort_by_perm. Qed.

(** What the loop of [gen_anova_data] yields for one feature. *)
Definition anova_result (P : Pingouin) (df : DataFrame) (groups_col : string)
  (col : string) (rec : string * Q * Q) : Prop :=
  fst (fst rec) = col
  /\ exists dv between,
       get_col df col = OK dv /\ get_col df groups_col = OK between
       /\ anova_oneway P dv between = OK (snd (fst rec), snd rec).

Lemma gen_anova_data_inv P df cols groups_col recs :
  gen_anova_data P df cols groups_col = OK recs ->
  Forall2 (anova_result P df groups_col) cols recs.
Proof.
  unfold gen_anova_data. revert recs.
  induction cols as [|col cols IH]; simpl; intros recs H.
  - injection H as <-. constructor.
  - destruct (get_col df col) as [dv|] eqn:Ed; [|discriminate].
    cbn [bind] in H.
    destruct (get_col df groups_col) as [between|] eqn:Eb; [|discriminate].
    cbn [bind] in H.
    destruct (anova_oneway P dv between) as [[p f]|] eqn:Ea; [|discriminate].
    cbn [bind fst snd] in H.
    destruct (mapM _ cols) as [recs'|]; [|discriminate].
    cbn [bind] in H. injection H as <-.
    constructor; [|apply IH; reflexivity].
    split; [reflexivity|]. exists dv, between. repeat split; assumption.
Qed.

Lemma Forall2_fst_eq {A B} (R : A -> B -> Prop) (f : B -> A)
  (l : list A) (m : list B) :
  (forall a b, R a b -> f b = a) -> Forall2 R l m -> map f m = l.
Proof.
  intros H. induction 1 as [|a b l m Hab _ IH]; simpl; [reflexivity|].
  now rewrite (H a b Hab), IH.
Qed.

Lemma anova_rows_full P S sess df attribute t :
  anova P S sess df attribute = OK t ->
  exists joined recs,
    concat_axis1 df (md sess) = OK joined
    /\ Forall2 (anova_result P joined attribute) (columns df) recs
    /\ t = mkFrame anova_final_columns
             (sort_by S (key_at 1)
                (map (anova_final (length recs))
                     (combine (seq 0 (length recs)) recs))).
Proof.
  unfold anova. intros H.
  destruct (concat_axis1 df (md sess)) as [joined|]; [|discriminate].
  cbn [bind] in H.
  destruct (gen_anova_data P joined (columns df) attribute) as [recs|] eqn:Eg;
    [|discriminate].
  cbn [bind] in H. rewrite add_bonferroni_to_anova_fresh in H.
  injection H as <-. exists joined, recs.
  split; [reflexivity|]. split; [apply gen_anova_data_inv, Eg|reflexivity].
Qed.

(** X2. The ANOVA table has one row per column of the feature table it is
    given: its "metabolite" cells are, up to the order of the rows, the
    column labels cut to their first 100 characters. *)
Theorem anova_one_row_per_feature :
  forall P S sess df attribute t,
    anova P S sess df attribute = OK t ->
    Permutation (map (field t "metabolite") (rows t))
                (map (fun c => Str (U100 c)) (columns df)).
Proof.
  intros P S sess df attribute t H.
  destruct (anova_rows_full _ _ _ _ _ _ H) as [joined [recs [_ [Hr ->]]]].
  cbn [rows]. eapply perm_trans; [apply Permutation_map_sort_by|].
  rewrite map_map.
  rewrite (map_indexed (fun r => Str (U100 (fst (fst r)))))
    by reflexivity.
  rewrite <- (Forall2_fst_eq _ (fun r => fst (fst r)) _ _
                (fun a b Hab => proj1 Hab) Hr).
  rewrite map_map. apply Permutation_refl.
Qed.

Lemma anova_one_row_per_feature_witness :
  Permutation (map (field site_anova "metabolite") (rows site_anova))
              [Str "f1"; Str "f2"].
Proof.
  exact (anova_one_row_per_feature _ _ _ _ _ _ site_anova_ok).
Defined.

(** X3. The t-test table has one row per column of the session's feature
    table, labelled by the column (no feature is left out, none is tested
    twice), and every row carries the stripped attribute name and the two
    target groups. *)
Theorem ttest_one_row_per_feature :
  forall P S sess attribute groups paired t,
    gen_ttest_data P S sess attribute groups paired = OK t ->
    Permutation (map label (rows t)) (map Str (columns (data sess)))
    /\ exists g0 g1,
         nth_error groups 0 = Some g0 /\ nth_error groups 1 = Some g1
         /\ Forall (fun r =>
                      field t "st.session_state.ttest_attribute" r
                      = Str (strip_attribute attribute)
                      /\ field t "A" r = g0 /\ field t "B" r = g1)
                   (rows t).
Proof.
  intros P S sess attribute groups paired t H.
  destruct (gen_ttest_data_rows _ _ _ _ _ _ _ H)
    as [df [xs [g0 [g1 [_ [H0 [H1 [Hx ->]]]]]]]].
  cbn [rows]. split.
  - eapply perm_trans; [apply Permutation_map_sort_by|].
    rewrite map_map. cbn.
    rewrite <- (Forall2_fst_eq _ fst _ _ (fun a b Hab => proj1 Hab) Hx).
    rewrite map_map. apply Permutation_refl.
  - exists g0, g1. unfold item in H0, H1.
    destruct (nth_error groups 0); [|discriminate].
    destruct (nth_error groups 1); [|discriminate].
    injection H0 as ->. injection H1 as ->.
    split; [reflexivity|]. split; [reflexivity|].
    apply Forall_sort_by, Forall_forall. intros r Hr.
    apply in_map_iff in Hr. destruct Hr as [x [<- _]].
    repeat split; reflexivity.
Qed.

Lemma ttest_one_row_per_feature_witness :
  Permutation (map label (rows site_ttest)) [Str "f1"; Str "f2"]
  /\ exists g0 g1,
       nth_error [Str "a"; Str "b"] 0 = Some g0
       /\ nth_error [Str "a"; Str "b"] 1 = Some g1
       /\ Forall (fun r =>
                    field site_ttest "st.session_state.ttest_attribute" r
                    = Str (strip_attribute "ATTRIBUTE_site")
                    /\ field site_ttest "A" r = g0
                    /\ field site_ttest "B" r = g1)
                 (rows site_ttest).
Proof.
  exact (ttest_one_row_per_feature _ _ _ _ _ _ _ site_ttest_ok).
Defined.

Lemma position_in (name : string) (cols : list string) (i : nat) :
  position name cols = Some i -> In name cols.
Proof.
  revert i. induction cols as [|c cols IH]; simpl; intros i H;
    [discriminate|].
  destruct (String.eqb name c) eqn:E.
  - left. symmetry. apply String.eqb_eq, E.
  - destruct (position name cols) as [j|]; [|discriminate].
    right. eapply IH. reflexivity.
Qed.

Lemma loc_of_in (df : DataFrame) (name : string) (i : nat) :
  loc_of df name = OK i -> In name (columns df).
Proof.
  unfold loc_of. destruct (position name (columns df)) as [j|] eqn:E;
    [|discriminate].
  intros _. eapply position_in, E.
Qed.

Lemma mapM_loc_of_in (df : DataFrame) (names : list string)
  (locs : list nat) :
  mapM (loc_of df) names = OK locs ->
  Forall (fun n => In n (columns df)) names.
Proof.
  revert locs. induction names as [|n names IH]; simpl; intros locs H;
    [constructor|].
  destruct (loc_of df n) as [i|] eqn:E; [|discriminate]. cbn [bind] in H.
  destruct (mapM (loc_of df) names) as [ls|]; [|discriminate].
  constructor; [eapply loc_of_in, E|eapply IH; reflexivity].
Qed.

Lemma select_columns_in (df : DataFrame) (names : list string)
  (t : DataFrame) :
  select_columns df names = OK t ->
  columns t = names /\ Forall (fun n => In n (columns df)) names.
Proof.
  unfold select_columns.
  destruct (mapM (loc_of df) names) as [locs|] eqn:E; [|discriminate].
  cbn [bind]. intros H. injection H as <-.
  split; [reflexivity|eapply mapM_loc_of_in, E].
Qed.

Lemma gen_pairwise_tukey_names P df metabolites attribute recs :
  gen_pairwise_tukey P df metabolites attribute = OK recs ->
  map fst recs = metabolites.
Proof.
  unfold gen_pairwise_tukey. revert recs.
  induction metabolites as [|m ms IH]; simpl; intros recs H.
  - injection H as <-. reflexivity.
  - destruct (pairwise_tukey P df m attribute) as [[|c rest]|];
      try discriminate.
    cbn [bind row0] in H.
    destruct (mapM _ ms) as [recs'|]; [|discriminate].
    cbn [bind] in H. injection H as <-. simpl.
    now rewrite (IH recs' eq_refl).
Qed.

Lemma tukey_rows_full P S sess df attribute elements t :
  tukey P S sess df attribute elements = OK t ->
  exists mask names recs,
    flag_col df "significant" = OK mask
    /\ string_col (select_rows mask df) "metabolite" = OK names
    /\ Forall (fun n => In n (columns (data sess))) names
    /\ In attribute (columns (md sess))
    /\ map fst recs = names
    /\ t = mkFrame tukey_final_columns
             (sort_by S (key_at 2)
                (map (tukey_final attribute (length recs))
                     (combine (seq 0 (length recs)) recs))).
Proof.
  unfold tukey. intros H.
  change (cs <- get_col df "significant" ;; mapM as_flag cs)
    with (flag_col df "significant") in H.
  destruct (flag_col df "significant") as [mask|] eqn:Em; [|discriminate].
  cbn [bind] in H.
  change (cs <- get_col (select_rows mask df) "metabolite" ;; mapM as_str cs)
    with (string_col (select_rows mask df) "metabolite") in H.
  destruct (string_col (select_rows mask df) "metabolite") as [names|] eqn:En;
    [|discriminate].
  cbn [bind] in H.
  destruct (select_columns (data sess) names) as [features|] eqn:Ef;
    [|discriminate].
  cbn [bind] in H.
  destruct (select_columns (md sess) [attribute]) as [attr|] eqn:Ea;
    [|discriminate].
  cbn [bind] in H.
  destruct (concat_axis1 features attr) as [joined|]; [|discriminate].
  cbn [bind] in H.
  destruct (get_col joined attribute) as [levels|]; [|discriminate].
  cbn [bind] in H. cbv zeta in H.
  destruct (gen_pairwise_tukey P _ names attribute) as [recs|] eqn:Er;
    [|discriminate].
  cbn [bind] in H. rewrite add_bonferroni_to_tukeys_fresh in H.
  injection H as <-.
  exists mask, names, recs.
  split; [first [reflexivity|assumption]|].
  split; [first [reflexivity|assumption]|].
  split; [apply (select_columns_in _ _ _ Ef)|].
  split.
  { destruct (select_columns_in _ _ _ Ea) as [_ Hin].
    inversion Hin; assumption. }
  split; [eapply gen_pairwise_tukey_names, Er|reflexivity].
Qed.

(** X4. The Tukey table has one row per metabolite that the given ANOVA
    table flags significant (none for the others), and it is returned only
    if each of these metabolites, under the name stored in that table, is a
    column of the session's feature table and the attribute is a column of
    the session's metadata. *)
Theorem tukey_one_row_per_significant_feature :
  forall P S sess df attribute elements t,
    tukey P S sess df attribute elements = OK t ->
    exists mask names,
      flag_col df "significant" = OK mask
      /\ string_col (select_rows mask df) "metabolite" = OK names
      /\ Permutation (map (field t "stats_metabolite") (rows t))
                     (map (fun m => Str (U100 m)) names)
      /\ Forall (fun n => In n (columns (data sess))) names
      /\ In attribute (columns (md sess)).
Proof.
  intros P S sess df attribute elements t H.
  destruct (tukey_rows_full _ _ _ _ _ _ _ H)
    as [mask [names [recs [Hm [Hn [Hin [Ha [Hf ->]]]]]]]].
  exists mask, names. split; [exact Hm|]. split; [exact Hn|].
  split; [|split; assumption].
  cbn [rows]. eapply perm_trans; [apply Permutation_map_sort_by|].
  rewrite map_map.
  rewrite (map_indexed (fun r => Str (U100 (fst r)))) by reflexivity.
  rewrite <- Hf, map_map. apply Permutation_refl.
Qed.

Lemma tukey_one_row_per_significant_feature_witness :
  exists mask names,
    flag_col site_anova "significant" = OK mask
    /\ string_col (select_rows mask site_anova) "metabolite" = OK names
    /\ Permutation (map (field site_tukey "stats_metabolite")
                        (rows site_tukey))
                   (map (fun m => Str (U100 m)) names)
    /\ Forall (fun n => In n (columns (data site_session))) names
    /\ In "ATTRIBUTE_site" (columns (md site_session)).
Proof.
  exact (tukey_one_row_per_significant_feature _ _ _ _ _ _ _ site_tukey_ok).
Defined.

(** ** Failures of the t-test *)

(** X5. The t-test returns a table only when at least two target groups
    are given: with fewer, [target_groups[0]] or [target_groups[1]] is out
    of range (or the feature table is empty), and no table is returned. *)
Theorem ttest_needs_two_groups :
  forall P S sess attribute groups paired,
    (length groups < 2)%nat ->
    forall t, gen_ttest_data P S sess attribute groups paired <> OK t.
Proof.
  intros P S sess attribute groups paired Hlen t H.
  destruct (gen_ttest_data_rows _ _ _ _ _ _ _ H)
    as [df [xs [g0 [g1 [_ [_ [H1 _]]]]]]].
  unfold item in H1. destruct (nth_error groups 1) eqn:E; [|discriminate].
  assert (nth_error groups 1 <> None) by congruence.
  apply nth_error_Some in H0. lia.
Qed.

Lemma ttest_needs_two_groups_witness :
  gen_ttest_data demo_pingouin stable_sorter site_session "ATTRIBUTE_site"
    [Str "a"] false = Error IndexError
  /\ forall t,
       gen_ttest_data demo_pingouin stable_sorter site_session
         "ATTRIBUTE_site" [Str "a"] false <> OK t.
Proof.
  split; [vm_compute; reflexivity|].
  apply ttest_needs_two_groups. simpl. lia.
Defined.

(** X6. On a session whose feature table has no columns the t-test fails
    with the [ValueError] of [pd.concat] on an empty list, whatever the
    other arguments are. *)
Theorem ttest_on_empty_features :
  forall P S sess attribute groups paired df,
    concat_axis1 (data sess) (md sess) = OK df ->
    columns (data sess) = [] ->
    gen_ttest_data P S sess attribute groups paired
    = Error (ValueError "No objects to concatenate").
Proof.
  intros P S sess attribute groups paired df Hdf Hc.
  unfold gen_ttest_data. rewrite Hdf, Hc. reflexivity.
Qed.

(** The session after "Re-do the data preparation": both tables are
    empty frames. *)
Definition reset_session : Session :=
  mkSession (mkFrame [] []) (mkFrame [] []) "" [].

Lemma ttest_on_empty_features_witness :
  gen_ttest_data demo_pingouin stable_sorter reset_session "ATTRIBUTE_site"
    [Str "a"; Str "b"] false
  = Error (ValueError "No objects to concatenate").
Proof.
  apply (ttest_on_empty_features _ _ reset_session _ _ _ (mkFrame [] []));
    reflexivity.
Defined.

(** X7. When the attribute names no column of the joined tables, the
    t-test fails with a [KeyError] on the attribute at the first feature. *)
Theorem ttest_on_missing_attribute :
  forall P S sess attribute groups paired df c cs i,
    concat_axis1 (data sess) (md sess) = OK df ->
    columns (data sess) = c :: cs ->
    loc_of df c = OK i ->
    position attribute (columns df) = None ->
    gen_ttest_data P S sess attribute groups paired
    = Error (KeyError attribute).
Proof.
  intros P S sess attribute groups paired df c cs i Hdf Hc Hi Ha.
  unfold gen_ttest_data. rewrite Hdf, Hc. cbn [bind mapM].
  unfold ttest_feature at 1. unfold feature_groups, get_col.
  rewrite Hi. cbn [bind]. unfold loc_of at 1. rewrite Ha. reflexivity.
Qed.

Lemma ttest_on_missing_attribute_witness :
  gen_ttest_data demo_pingouin stable_sorter site_session "site"
    [Str "a"; Str "b"] false
  = Error (KeyError "site").
Proof.
  apply (ttest_on_missing_attribute _ _ site_session _ _ _
           (frame_or_empty
              (concat_axis1 (data site_session) (md site_session)))
           "f1" ["f2"] 0%nat); reflexivity.
Defined.

(** ** The figures on the result tables *)

Definition str_at (i : nat) (r : row) : string :=
  match at_pos i r with
  | Str s => s
  | _ => ""
  end.

Lemma Forall_filter_of {A} (P : A -> Prop) (f : A -> bool) (l : list A) :
  Forall P l -> Forall P (filter f l).
Proof.
  intros H. apply Forall_forall. intros a Ha.
  apply filter_In in Ha. rewrite Forall_forall in H. apply H, Ha.
Qed.

Lemma numeric_col_rows (cols : list string) (R : list row) (name : string)
  (i : nat) :
  loc_of (mkFrame cols []) name = OK i ->
  Forall (fun r => exists q, at_pos i r = Num q) R ->
  numeric_col (mkFrame cols R) name = OK (map (key_at i) R).
Proof.
  intros Hloc HR. unfold numeric_col, get_col, loc_of in *.
  cbn [columns] in *.
  destruct (position name cols); [|discriminate].
  destruct (occurrences name cols =? 1)%nat; [|discriminate].
  injection Hloc as ->. cbn [bind rows].
  induction HR as [|r R [q Hq] _ IH]; simpl; [reflexivity|].
  unfold key_at at 1. rewrite Hq. cbn [as_num bind]. rewrite IH.
  reflexivity.
Qed.

Lemma string_col_rows (cols : list string) (R : list row) (name : string)
  (i : nat) :
  loc_of (mkFrame cols []) name = OK i ->
  Forall (fun r => exists s, at_pos i r = Str s) R ->
  string_col (mkFrame cols R) name = OK (map (str_at i) R).
Proof.
  intros Hloc HR. unfold string_col, get_col, loc_of in *.
  cbn [columns] in *.
  destruct (position name cols); [|discriminate].
  destruct (occurrences name cols =? 1)%nat; [|discriminate].
  injection Hloc as ->. cbn [bind rows].
  induction HR as [|r R [s Hs] _ IH]; simpl; [reflexivity|].
  unfold str_at at 1. rewrite Hs. cbn [as_str bind]. rewrite IH.
  reflexivity.
Qed.

Lemma select_rows_map (f : row -> bool) (cols : list string)
  (R : list row) :
  select_rows (map f R) (mkFrame cols R) = mkFrame cols (filter f R).
Proof. unfold select_rows. cbn [rows columns]. now rewrite filter_by_mask. Qed.

Lemma filter_rest_of_prefix {A} (f : A -> bool) (l : list A) :
  filter f l = firstn (length (filter f l)) l ->
  filter (fun a => negb (f a)) l = skipn (length (filter f l)) l.
Proof.
  induction l as [|a l IH]; simpl; [reflexivity|].
  destruct (f a) eqn:E; simpl.
  - intros H. injection H as H. apply IH, H.
  - intros H. destruct (filter f l) as [|b m] eqn:Ef.
    + simpl. f_equal.
      clear IH H. induction l as [|c l IHl]; simpl in *; [reflexivity|].
      destruct (f c); [discriminate|]. simpl. f_equal. apply IHl, Ef.
    + simpl in H. injection H as Hb _. subst b.
      assert (Hin : In a (filter f l)) by (rewrite Ef; left; reflexivity).
      apply filter_In in Hin. destruct Hin as [_ Hfa]. congruence.
Qed.

(** The rows of a sorted result table, with the cells the figures read. *)
Lemma prefix_of_sorted (S : Sorter) (i k : nat) {X} (g : X -> row)
  (L : list X) :
  (forall x y, key_at k (g x) <= key_at k (g y) ->
               flag_at i (g y) = true -> flag_at i (g x) = true) ->
  let R := sort_by S (key_at k) (map g L) in
  filter (flag_at i) R = firstn (length (filter (flag_at i) R)) R.
Proof.
  intros Hmono R.
  apply (sorted_filter_prefix (key_at k)); [|apply sort_by_sorted].
  intros a b Ha Hb.
  apply (Permutation_in _ (Permutation_sym (sort_by_perm S _ _ _))) in Ha.
  apply (Permutation_in _ (Permutation_sym (sort_by_perm S _ _ _))) in Hb.
  apply in_map_iff in Ha. destruct Ha as [x [<- _]].
  apply in_map_iff in Hb. destruct Hb as [y [<- _]].
  apply Hmono.
Qed.




Definition tukey_plot_of (log : Q -> Q) (t : DataFrame) (k : nat)
  (fig : trace * trace) : Prop :=
  let x r := num_field t "diff" r in
  let y r := - log (num_field t "stats_p" r) in
  trace_x (snd fig) = map x (firstn k (rows t))
  /\ trace_y (snd fig) = map y (firstn k (rows t))
  /\ trace_text (snd fig) = firstn 5 (map (str_at 0) (rows t))
  /\ trace_x (fst fig) = map x (skipn k (rows t))
  /\ trace_y (fst fig) = map y (skipn k (rows t))
  /\ trace_text (fst fig) = [].

(** X9. [get_tukey_volcano_plot] succeeds on every table that [tukey]
    returns; the significant trace is made of the first [k] rows, which
    are the rows flagged significant (column 4), the other trace of the
    rest, and the texts are the metabolites of the first five rows. *)
Theorem tukey_plot_labels_its_points :
  forall P S sess df attribute elements t (log : Q -> Q),
    tukey P S sess df attribute elements = OK t ->
    exists fig k,
      get_tukey_volcano_plot log t = OK fig
      /\ filter (flag_at 4) (rows t) = firstn k (rows t)
      /\ tukey_plot_of log t k fig.
Proof.
  intros P S sess df attribute elements t log H.
  destruct (tukey_rows _ _ _ _ _ _ _ H) as [j [l [ns [recs [_ [_ ->]]]]]].
  set (n := length recs). set (L := combine (seq 0 n) recs).
  set (R := sort_by S (key_at 2) (map (tukey_final attribute n) L)).
  assert (HR : Forall (fun r => exists x, r = tukey_final attribute n x) R).
  { apply Forall_sort_by, Forall_forall. intros r Hr.
    apply in_map_iff in Hr. destruct Hr as [x [<- _]]. now exists x. }
  assert (Hpre := prefix_of_sorted S 4 2 (tukey_final attribute n) L
                    (fun x y => bonf_flag_mono _ _ n)).
  cbv zeta in Hpre. fold R in Hpre.
  set (k := length (filter (flag_at 4) R)) in *.
  assert (Hrest := filter_rest_of_prefix (flag_at 4) R Hpre). fold k in Hrest.
  unfold get_tukey_volcano_plot.
  rewrite (flag_col_rows _ R "stats_significant" 4); [|reflexivity|].
  2:{ eapply Forall_impl; [|exact HR]. intros r [x ->]. eexists. reflexivity. }
  cbn [bind]. rewrite map_map, !select_rows_map, Hpre, Hrest.
  assert (Hnum : forall (i : nat) (R' : list row),
             (i = 1 \/ i = 2)%nat -> Forall (fun r => In r R) R' ->
             Forall (fun r => exists q, at_pos i r = Num q) R').
  { intros i R' Hi HR'. eapply Forall_impl; [|exact HR'].
    intros r Hr. rewrite Forall_forall in HR. destruct (HR r Hr) as [x ->].
    destruct Hi as [->| ->]; eexists; reflexivity. }
  assert (Hfirst : Forall (fun r => In r R) (firstn k R)).
  { apply Forall_forall. intros r Hr.
    rewrite <- (firstn_skipn k R). apply in_or_app. left. exact Hr. }
  assert (Hskip : Forall (fun r => In r R) (skipn k R)).
  { apply Forall_forall. intros r Hr.
    rewrite <- (firstn_skipn k R). apply in_or_app. right. exact Hr. }
  rewrite (numeric_col_rows _ (skipn k R) "diff" 1);
    [|reflexivity|apply Hnum; [left; reflexivity|exact Hskip]].
  cbn [bind].
  rewrite (numeric_col_rows _ (skipn k R) "stats_p" 2);
    [|reflexivity|apply Hnum; [right; reflexivity|exact Hskip]].
  cbn [bind].
  rewrite (numeric_col_rows _ (firstn k R) "diff" 1);
    [|reflexivity|apply Hnum; [left; reflexivity|exact Hfirst]].
  cbn [bind].
  rewrite (numeric_col_rows _ (firstn k R) "stats_p" 2);
    [|reflexivity|apply Hnum; [right; reflexivity|exact Hfirst]].
  cbn [bind].
  rewrite (string_col_rows _ R "stats_metabolite" 0); [|reflexivity|].
  2:{ eapply Forall_impl; [|exact HR]. intros r [x ->]. eexists. reflexivity. }
  cbn [bind].
  eexists. exists k. split; [reflexivity|]. split; [exact Hpre|].
  unfold tukey_plot_of. cbn [fst snd trace_x trace_y trace_text rows].
  rewrite !map_map. repeat split; reflexivity.
Qed.

Lemma tukey_plot_labels_its_points_witness :
  exists fig k,
    get_tukey_volcano_plot (fun q => q) site_tukey = OK fig
    /\ filter (flag_at 4) (rows site_tukey) = firstn k (rows site_tukey)
    /\ tukey_plot_of (fun q => q) site_tukey k fig.
Proof.
  exact (tukey_plot_labels_its_points _ _ _ _ _ _ _ (fun q => q)
           site_tukey_ok).
Defined.

From Stdlib Require Import Lqa.

(** ** The figure of the t-test *)

Lemma at_index_map {A B} (f : A -> B) (l : list A) (i : nat) :
  at_index (map f l) i
  = match at_index l i with
    | OK a => OK (f a)
    | Error e => Error e
    end.
Proof.
  unfold at_index. rewrite nth_error_map.
  destruct (nth_error l i); reflexivity.
Qed.

Lemma mapM_map {A B C} (f : B -> result C) (g : A -> B) (l : list A) :
  mapM f (map g l) = mapM (fun a => f (g a)) l.
Proof.
  induction l as [|a l IH]; simpl; [reflexivity|now rewrite IH].
Qed.

Lemma mapM_at_index_seq {A B} (G : A -> B) (l : list A) (k : nat) :
  (k <= length l)%nat ->
  mapM (fun i => a <- at_index l i ;; OK (G a)) (seq 0 k)
  = OK (map G (firstn k l)).
Proof.
  revert k. induction l as [|a l IH]; intros k Hk.
  - simpl in Hk. assert (k = 0)%nat by lia. subst. reflexivity.
  - destruct k as [|k]; [reflexivity|].
    cbn [seq mapM]. unfold at_index at 1. cbn [nth_error bind].
    rewrite <- seq_shift, mapM_map.
    rewrite (mapM_ext_in _ (fun i => a0 <- at_index l i ;; OK (G a0)));
      [|reflexivity].
    rewrite IH by (simpl in Hk; lia). reflexivity.
Qed.

Lemma Qminimum_le (q : Q) (l : list Q) (x : Q) :
  In x (q :: l) -> Qminimum q l <= x.
Proof.
  induction l as [|a l IH]; simpl.
  - intros [<-|[]]. apply Qle_refl.
  - intros [<-|[<-|H]].
    + eapply Qle_trans; [apply Q.le_min_r|]. apply IH. left. reflexivity.
    + apply Q.le_min_l.
    + eapply Qle_trans; [apply Q.le_min_r|]. apply IH. right. exact H.
Qed.

Lemma Qmaximum_ge (q : Q) (l : list Q) (x : Q) :
  In x (q :: l) -> x <= Qmaximum q l.
Proof.
  induction l as [|a l IH]; simpl.
  - intros [<-|[]]. apply Qle_refl.
  - intros [<-|[<-|H]].
    + eapply Qle_trans; [|apply Q.le_max_r]. apply IH. left. reflexivity.
    + apply Q.le_max_l.
    + eapply Qle_trans; [|apply Q.le_max_r]. apply IH. right. exact H.
Qed.

Lemma Qabs_diff_of_le (lo hi : Q) : lo <= hi -> Qabs_diff hi lo == hi - lo.
Proof.
  intros H. unfold Qabs_diff. destruct (Qle_bool hi lo) eqn:E.
  - apply Qle_bool_iff in E. lra.
  - reflexivity.
Qed.

Lemma within_padded_range (lo hi x : Q) :
  lo <= x -> x <= hi ->
  lo - Qabs_diff hi lo / 5 <= x /\ x <= hi + Qabs_diff hi lo / 5
  /\ lo - Qabs_diff hi lo / 5 <= x + (hi - lo) / 12
  /\ x + (hi - lo) / 12 <= hi + Qabs_diff hi lo / 5.
Proof.
  intros H1 H2. assert (Hw : lo <= hi) by lra.
  pose proof (Qabs_diff_of_le lo hi Hw) as Hd.
  assert (H5 : Qabs_diff hi lo / 5 == (hi - lo) / 5) by (rewrite Hd; reflexivity).
  rewrite H5.
  assert (E5 : (hi - lo) / 5 == (hi - lo) * (1 # 5)) by reflexivity.
  assert (E12 : (hi - lo) / 12 == (hi - lo) * (1 # 12)) by reflexivity.
  rewrite E5, E12. repeat split; lra.
Qed.

Definition in_range (range : Q * Q) (x : Q) : Prop :=
  fst range <= x /\ x <= snd range.

Lemma plot_ttest_rows (log : Q -> Q) (R : list row) :
  Forall (fun r => exists a pb b,
              at_pos 0 r = Num a /\ at_pos 8 r = Num pb
              /\ at_pos 9 r = Flag b) R ->
  R <> [] ->
  let t := map (key_at 0) R in
  let lo := Qminimum (hd 0 t) (tl t) in
  let hi := Qmaximum (hd 0 t) (tl t) in
  plot_ttest log (mkFrame ttest_final_columns R)
  = OK (mkTtestFigure t (map (fun r => - log (key_at 8 r)) R)
          (map (flag_at 9) R) (map label R)
          (lo - Qabs_diff hi lo / 5, hi + Qabs_diff hi lo / 5)
          (map (fun r => mkAnnotation (key_at 0 r + (hi - lo) / 12)
                                      (- log (key_at 8 r)) (label r))
               (firstn (length (filter (flag_at 9) R)) R))).
Proof.
  intros HR Hne. cbv zeta. unfold plot_ttest.
  rewrite (numeric_col_rows _ R "T" 0); [|reflexivity|].
  2:{ eapply Forall_impl; [|exact HR]. intros r [a [pb [b [Ha _]]]].
      now exists a. }
  cbn [bind].
  rewrite (numeric_col_rows _ R "p-bonf" 8); [|reflexivity|].
  2:{ eapply Forall_impl; [|exact HR]. intros r [a [pb [b [_ [Hp _]]]]].
      now exists pb. }
  cbn [bind].
  rewrite (flag_col_rows _ R "significance" 9); [|reflexivity|].
  2:{ eapply Forall_impl; [|exact HR]. intros r [a [pb [b [_ [_ Hb]]]]].
      now exists b. }
  cbn [bind]. rewrite count_true_map. cbn [rows].
  destruct R as [|r0 R']; [congruence|].
  set (R := r0 :: R') in *.
  change (map (key_at 0) R) with (key_at 0 r0 :: map (key_at 0) R').
  cbn [hd tl].
  set (lo := Qminimum (key_at 0 r0) (map (key_at 0) R')).
  set (hi := Qmaximum (key_at 0 r0) (map (key_at 0) R')).
  rewrite (mapM_ext_in _
             (fun i => r <- at_index R i ;;
                       OK (mkAnnotation (key_at 0 r + (hi - lo) / 12)
                                        (- log (key_at 8 r)) (label r)))).
  - rewrite mapM_at_index_seq by apply filter_length_le.
    cbn [bind]. rewrite map_map. reflexivity.
  - intros i _.
    change (key_at 0 r0 :: map (key_at 0) R') with (map (key_at 0) R).
    rewrite map_map, !at_index_map.
    destruct (at_index R i); reflexivity.
Qed.

(** X10. [plot_ttest] succeeds on every table that [gen_ttest_data]
    returns.  Its annotations are, in order, the labels of the rows flagged
    significant, and the range of the x axis contains every point and
    every annotation. *)
Theorem ttest_plot_annotates_the_significant :
  forall P S sess attribute groups paired t (log : Q -> Q),
    gen_ttest_data P S sess attribute groups paired = OK t ->
    exists fig,
      plot_ttest log t = OK fig
      /\ map ann_text (annotations fig)
         = map label (filter (flag_at 9) (rows t))
      /\ points_x fig = map (num_field t "T") (rows t)
      /\ hover_name fig = map label (rows t)
      /\ Forall (in_range (xaxis_range fig)) (points_x fig)
      /\ Forall (fun a => in_range (xaxis_range fig) (ann_x a))
                (annotations fig).
Proof.
  intros P S sess attribute groups paired t log H.
  pose proof H as H'.
  destruct (gen_ttest_data_rows _ _ _ _ _ _ _ H)
    as [df [xs [g0 [g1 [Hdf [_ [_ [Hx ->]]]]]]]].
  set (g := ttest_final attribute g0 g1 (length xs)).
  set (R := sort_by S (key_at 8) (map g xs)).
  assert (HR : Forall (fun r => exists x, r = g x) R).
  { apply Forall_sort_by, Forall_forall. intros r Hr.
    apply in_map_iff in Hr. destruct Hr as [x [<- _]]. now exists x. }
  assert (Hne : R <> []).
  { intros E. assert (Hl : length R = length xs).
    { unfold R. now rewrite length_sort_by, length_map. }
    rewrite E in Hl. destruct xs; [|discriminate].
    inversion Hx as [Hc|]; subst.
    unfold gen_ttest_data in H'. rewrite Hdf, <- Hc in H'. discriminate. }
  assert (Hpre := prefix_of_sorted S 9 8 g xs).
  cbv zeta in Hpre. fold R in Hpre.
  assert (Hp : filter (flag_at 9) R
               = firstn (length (filter (flag_at 9) R)) R).
  { apply Hpre. intros x y. cbn. intros Hle Hy.
    apply Qltb_lt in Hy. apply Qltb_lt. eapply Qle_lt_trans; eassumption. }
  pose proof (plot_ttest_rows log R) as Hplot. cbv zeta in Hplot.
  rewrite Hplot; [|clear Hplot|exact Hne].
  2:{ eapply Forall_impl; [|exact HR]. intros r [x ->].
      eexists _, _, _. repeat split; reflexivity. }
  eexists. split; [reflexivity|].
  cbn [annotations points_x hover_name xaxis_range rows].
  split; [rewrite map_map; cbn [ann_text]; now rewrite <- Hp|].
  split; [reflexivity|]. split; [reflexivity|].
  set (T0 := map (key_at 0) R).
  assert (Hb : forall x, In x T0 ->
                 Qminimum (hd 0 T0) (tl T0) <= x
                 /\ x <= Qmaximum (hd 0 T0) (tl T0)).
  { intros x Hin. destruct T0 as [|a l] eqn:ET; [contradiction|].
    cbn [hd tl]. split; [apply Qminimum_le|apply Qmaximum_ge]; exact Hin. }
  split.
  - apply Forall_forall. intros x Hin. destruct (Hb x Hin) as [H1 H2].
    destruct (within_padded_range _ _ x H1 H2) as [A [B _]].
    split; assumption.
  - apply Forall_forall. intros a Ha.
    apply in_map_iff in Ha. destruct Ha as [r [<- Hr]]. cbn [ann_x].
    assert (Hin : In (key_at 0 r) T0).
    { apply in_map. rewrite <- (firstn_skipn (length (filter (flag_at 9) R)) R).
      apply in_or_app. left. exact Hr. }
    destruct (Hb _ Hin) as [H1 H2].
    destruct (within_padded_range _ _ _ H1 H2) as [_ [_ [C D]]].
    split; assumption.
Qed.

(** Three samples against three, two features of which one differs much
    between the groups. *)
Definition mixed_session : Session :=
  mkSession
    (numeric_frame ["flat"; "shift"]
       [("s1", [5; 1]); ("s2", [6; 2]); ("s3", [7; 3]);
        ("s4", [5; 101]); ("s5", [6; 102]); ("s6", [8; 103])])
    (label_frame ["ATTRIBUTE_group"]
       [("s1", ["a"]); ("s2", ["a"]); ("s3", ["a"]);
        ("s4", ["b"]); ("s5", ["b"]); ("s6", ["b"])])
    "group" [Str "a"; Str "b"].

Definition mixed_ttest : DataFrame :=
  frame_or_empty
    (gen_ttest_data demo_pingouin stable_sorter mixed_session
       "ATTRIBUTE_group" [Str "a"; Str "b"] false).

Lemma mixed_ttest_ok :
  gen_ttest_data demo_pingouin stable_sorter mixed_session
    "ATTRIBUTE_group" [Str "a"; Str "b"] false = OK mixed_ttest.
Proof. vm_compute. reflexivity. Defined.

Lemma ttest_plot_annotates_the_significant_witness :
  map label (filter (flag_at 9) (rows mixed_ttest)) = [Str "shift"]
  /\ exists fig,
       plot_ttest (fun q => q) mixed_ttest = OK fig
       /\ map ann_text (annotations fig)
          = map label (filter (flag_at 9) (rows mixed_ttest))
       /\ points_x fig = map (num_field mixed_ttest "T") (rows mixed_ttest)
       /\ hover_name fig = map label (rows mixed_ttest)
       /\ Forall (in_range (xaxis_range fig)) (points_x fig)
       /\ Forall (fun a => in_range (xaxis_range fig) (ann_x a))
                 (annotations fig).
Proof.
  split; [reflexivity|].
  exact (ttest_plot_annotates_the_significant _ _ _ _ _ _ _ (fun q => q)
           mixed_ttest_ok).
Defined.

(** ** The attribute prefix *)

(** No occurrence of [old] in [s]. *)
Fixpoint free_of (old s : string) : bool :=
  match s with
  | EmptyString => true
  | String c s' => negb (prefix old s) && free_of old s'
  end.

Lemma drop_all_free (old s : string) :
  free_of old s = true -> drop_all old 0 s = s.
Proof.
  induction s as [|c s IH]; [reflexivity|].
  cbn [free_of drop_all]. intros H. apply andb_true_iff in H.
  destruct H as [Hp Hf]. apply negb_true_iff in Hp. rewrite Hp.
  now rewrite IH.
Qed.

Lemma drop_all_skip (old t s : string) :
  drop_all old (String.length t) (t ++ s) = drop_all old 0 s.
Proof.
  induction t as [|c t IH]; [reflexivity|]. simpl. exact IH.
Qed.

Lemma prefix_nil (s : string) : prefix "" s = true.
Proof. destruct s; reflexivity. Qed.

Lemma strip_attribute_prefixed (s : string) :
  strip_attribute ("ATTRIBUTE_" ++ s) = strip_attribute s.
Proof.
  unfold strip_attribute.
  change ("ATTRIBUTE_" ++ s)%string
    with (String "A" ("TTRIBUTE_" ++ s))%string.
  cbn [drop_all].
  assert (Hp : prefix "ATTRIBUTE_" (String "A" ("TTRIBUTE_" ++ s)) = true).
  { cbn. apply prefix_nil. }
  rewrite Hp.
  change (String.length "ATTRIBUTE_" - 1)%nat
    with (String.length "TTRIBUTE_").
  apply drop_all_skip.
Qed.

(** X11. Stripping the attribute prefix undoes prefixing: for a name
    without an occurrence of "ATTRIBUTE_", [("ATTRIBUTE_" + name)] stripped
    is the name again, and stripping leaves such a name as it is. *)
Theorem strip_attribute_undoes_the_prefix :
  forall name : string,
    free_of "ATTRIBUTE_" name = true ->
    strip_attribute ("ATTRIBUTE_" ++ name) = name
    /\ strip_attribute name = name.
Proof.
  intros name H. rewrite strip_attribute_prefixed.
  split; apply drop_all_free, H.
Qed.

Lemma strip_attribute_undoes_the_prefix_witness :
  strip_attribute ("ATTRIBUTE_" ++ "site") = "site"
  /\ strip_attribute "site" = "site".
Proof. apply strip_attribute_undoes_the_prefix. reflexivity. Defined.

(** ** The boxplot of a metabolite *)

Lemma Permutation_filter_compat {A} (f : A -> bool) (l l' : list A) :
  Permutation l l' -> Permutation (filter f l) (filter f l').
Proof.
  induction 1 as [|a l l' _ IH|a b l|l l' l'' _ IH1 _ IH2]; simpl.
  - constructor.
  - destruct (f a); [apply perm_skip|]; exact IH.
  - destruct (f a), (f b); try apply Permutation_refl. apply perm_swap.
  - eapply perm_trans; eassumption.
Qed.

Lemma filter_unique_key {A} (k : A -> string) (l : list A) (a : A) :
  NoDup (map k l) -> In a l ->
  filter (fun x => String.eqb (k x) (k a)) l = [a].
Proof.
  induction l as [|b l IH]; simpl; intros Hnd Hin; [contradiction|].
  inversion Hnd as [|? ? Hnin Hnd']; subst.
  destruct Hin as [->|Hin].
  - rewrite String.eqb_refl. f_equal. apply filter_none.
    intros c Hc. apply String.eqb_neq. intros E.
    apply Hnin. rewrite <- E. apply in_map, Hc.
  - assert (Hne : String.eqb (k b) (k a) = false).
    { apply String.eqb_neq. intros E. apply Hnin. rewrite E.
      apply in_map, Hin. }
    rewrite Hne. apply IH; assumption.
Qed.

Lemma Forall2_in_l {A B} (R : A -> B -> Prop) (l : list A) (m : list B)
  (a : A) :
  Forall2 R l m -> In a l -> exists b, In b m /\ R a b.
Proof.
  induction 1 as [|x y l m Hxy _ IH]; simpl; [contradiction|].
  intros [->|Hin].
  - exists y. split; [left; reflexivity|exact Hxy].
  - destruct (IH Hin) as [b [Hb Hab]]. exists b. split; [right|]; assumption.
Qed.

(** X12. On a table that [anova] returns for features with distinct names
    (as cut to 100 characters), the p-value that the boxplot of a feature
    shows in its title is found, and it is the uncorrected p-value of the
    one-way ANOVA of this feature's column by the attribute. *)
Theorem boxplot_shows_the_anova_p_value :
  forall P S sess df attribute t col,
    anova P S sess df attribute = OK t ->
    NoDup (map U100 (columns df)) ->
    In col (columns df) ->
    exists joined dv between p F,
      boxplot_p_value t (U100 col) = OK (Num p)
      /\ concat_axis1 df (md sess) = OK joined
      /\ get_col joined col = OK dv
      /\ get_col joined attribute = OK between
      /\ anova_oneway P dv between = OK (p, F).
Proof.
  intros P S sess df attribute t col H Hnd Hcol.
  destruct (anova_rows_full _ _ _ _ _ _ H) as [joined [recs [Hj [Hr ->]]]].
  destruct (Forall2_in_l _ _ _ _ Hr Hcol)
    as [rec [Hrec [Hname [dv [between [Hdv [Hb Hk]]]]]]].
  exists joined, dv, between, (snd (fst rec)), (snd rec).
  split; [|repeat split; assumption].
  set (n := length recs). set (L := combine (seq 0 n) recs).
  set (g := anova_final n).
  set (R := sort_by S (key_at 1) (map g L)).
  set (name := fun x : nat * (string * Q * Q) => U100 (fst (fst (snd x)))).
  assert (HndL : NoDup (map name L)).
  { unfold name, L, n.
    rewrite (map_indexed (fun r => U100 (fst (fst r)))) by reflexivity.
    rewrite <- (Forall2_fst_eq _ (fun r => fst (fst r)) _ _
                  (fun a b Hab => proj1 Hab) Hr) in Hnd.
    now rewrite map_map in Hnd. }
  assert (Hx : exists x, In x L /\ snd x = rec).
  { rewrite <- (map_snd_indexed recs) in Hrec.
    apply in_map_iff in Hrec. destruct Hrec as [x [Hs Hx]].
    exists x. split; assumption. }
  destruct Hx as [x [HxL Hxs]].
  set (f := fun r : row => cell_eqb (at_pos 0 r) (Str (U100 col))).
  assert (Hf : filter f R = [g x]).
  { apply Permutation_length_1_inv. apply Permutation_sym.
    eapply perm_trans;
      [apply Permutation_filter_compat, Permutation_sym, sort_by_perm|].
    rewrite filter_map_swap.
    rewrite (filter_ext _ (fun y => String.eqb (name y) (name x))).
    - rewrite (filter_unique_key name L x HndL HxL). apply Permutation_refl.
    - intros y. unfold f, g, name. cbn. rewrite Hxs, Hname. reflexivity. }
  unfold boxplot_p_value, set_index.
  change (loc_of (mkFrame anova_final_columns R) "metabolite")
    with (@OK nat 0%nat).
  cbn [bind rows columns]. unfold loc_cell.
  match goal with
  | |- context [loc_of ?d "p"] => change (loc_of d "p") with (@OK nat 0%nat)
  end.
  cbn [bind rows label]. rewrite filter_map_swap. cbn [label].
  fold f. rewrite Hf. cbn. rewrite Hxs. reflexivity.
Qed.

Lemma boxplot_shows_the_anova_p_value_witness :
  exists joined dv between p F,
    boxplot_p_value site_anova (U100 "f2") = OK (Num p)
    /\ concat_axis1 (data site_session) (md site_session) = OK joined
    /\ get_col joined "f2" = OK dv
    /\ get_col joined "ATTRIBUTE_site" = OK between
    /\ anova_oneway demo_pingouin dv between = OK (p, F).
Proof.
  apply (boxplot_shows_the_anova_p_value _ _ _ _ _ _ "f2" site_anova_ok).
  - repeat constructor; simpl; intuition discriminate.
  - right. left. reflexivity.
Defined.

Lemma loc_of_field (df : DataFrame) (name : string) (i : nat) (r : row) :
  loc_of df name = OK i -> field df name r = at_pos i r.
Proof.
  unfold loc_of, field.
  destruct (position name (columns df)) as [j|]; [|discriminate].
  destruct (occurrences name (columns df) =? 1)%nat; [|discriminate].
  intros H. injection H as ->. reflexivity.
Qed.

Lemma boxplot_p_value_row (anova_ : DataFrame) (metabolite : string)
  (p : cell) :
  boxplot_p_value anova_ metabolite = OK p ->
  exists r, In r (rows anova_)
            /\ field anova_ "metabolite" r = Str metabolite.
Proof.
  unfold boxplot_p_value, set_index. intros H.
  destruct (loc_of anova_ "metabolite") as [i|] eqn:Ei; [|discriminate].
  cbn [bind] in H. unfold loc_cell in H.
  match type of H with
  | context [loc_of ?d "p"] => destruct (loc_of d "p"); [|discriminate]
  end.
  cbn [bind rows] in H.
  match type of H with
  | context [filter ?f ?l] => destruct (filter f l) as [|r' [|r'' l']] eqn:Ef
  end; try discriminate.
  assert (Hin : In r' [r']) by (left; reflexivity).
  rewrite <- Ef in Hin. apply filter_In in Hin. destruct Hin as [Hin Hl].
  apply in_map_iff in Hin. destruct Hin as [r [<- Hr]]. cbn [label] in Hl.
  exists r. split; [exact Hr|].
  rewrite (loc_of_field _ _ _ _ Ei). apply cell_eqb_Str, Hl.
Qed.

Lemma concat_axis1_columns (a b t : DataFrame) :
  concat_axis1 a b = OK t -> columns t = (columns a ++ columns b)%list.
Proof.
  unfold concat_axis1. destruct (all_eqb _ _); [|discriminate].
  intros H. injection H as <-. reflexivity.
Qed.

(** X13. When [get_metabolite_boxplot] returns, the metabolite labels a
    row of the ANOVA table, the plotted frame has exactly the two columns
    "ATTRIBUTE_" + attribute and the metabolite, both taken from the joined
    session tables, and for an attribute name without "ATTRIBUTE_" in it
    the title of the x axis is the attribute name. *)
Theorem metabolite_boxplot_frame :
  forall sess anova_attribute anova_ metabolite p df title,
    get_metabolite_boxplot sess anova_attribute anova_ metabolite
    = OK (p, df, title) ->
    (exists r, In r (rows anova_)
               /\ field anova_ "metabolite" r = Str metabolite)
    /\ columns df = [("ATTRIBUTE_" ++ anova_attribute)%string; metabolite]
    /\ In ("ATTRIBUTE_" ++ anova_attribute)%string
          (columns (data sess) ++ columns (md sess))
    /\ In metabolite (columns (data sess) ++ columns (md sess))
    /\ Forall (fun r => length (cells r) = 2%nat) (rows df)
    /\ (free_of "ATTRIBUTE_" anova_attribute = true ->
        title = anova_attribute).
Proof.
  intros sess a anova_ m p df title H.
  unfold get_metabolite_boxplot in H. cbv zeta in H.
  destruct (boxplot_p_value anova_ m) as [p'|] eqn:Ep; [|discriminate].
  cbn [bind] in H.
  destruct (concat_axis1 (data sess) (md sess)) as [joined|] eqn:Ej;
    [|discriminate].
  cbn [bind] in H.
  destruct (select_columns joined _) as [df'|] eqn:Es; [|discriminate].
  cbn [bind] in H. injection H as -> -> <-.
  split; [eapply boxplot_p_value_row, Ep|].
  destruct (select_columns_in _ _ _ Es) as [Hc Hin].
  rewrite (concat_axis1_columns _ _ _ Ej) in Hin.
  split; [exact Hc|].
  inversion Hin as [|? ? H1 H2]; subst. inversion H2 as [|? ? H3 _]; subst.
  split; [exact H1|]. split; [exact H3|].
  split.
  - unfold select_columns in Es.
    destruct (mapM (loc_of joined) _) as [locs|] eqn:El; [|discriminate].
    cbn [bind] in Es. injection Es as <-. cbn [rows].
    assert (Hlen : length locs = 2%nat).
    { cbn [mapM] in El.
      destruct (loc_of joined _); [|discriminate]. cbn [bind] in El.
      destruct (loc_of joined m); [|discriminate]. cbn [bind] in El.
      injection El as <-. reflexivity. }
    apply Forall_forall. intros r Hr. apply in_map_iff in Hr.
    destruct Hr as [r0 [<- _]]. cbn [cells]. now rewrite length_map.
  - intros Hfree.
    exact (eq_trans (strip_attribute_prefixed a) (drop_all_free _ _ Hfree)).
Qed.

Definition site_boxplot : cell * DataFrame * string :=
  match get_metabolite_boxplot site_session "site" site_anova "f1" with
  | OK x => x
  | Error _ => (NaN, mkFrame [] [], "")
  end.

Lemma site_boxplot_ok :
  get_metabolite_boxplot site_session "site" site_anova "f1"
  = OK (fst (fst site_boxplot), snd (fst site_boxplot), snd site_boxplot).
Proof. vm_compute. reflexivity. Defined.

Lemma metabolite_boxplot_frame_witness :
  (exists r, In r (rows site_anova)
             /\ field site_anova "metabolite" r = Str "f1")
  /\ columns (snd (fst site_boxplot)) = ["ATTRIBUTE_site"; "f1"]
  /\ In "ATTRIBUTE_site"
        (columns (data site_session) ++ columns (md site_session))
  /\ In "f1" (columns (data site_session) ++ columns (md site_session))
  /\ Forall (fun r => length (cells r) = 2%nat)
            (rows (snd (fst site_boxplot)))
  /\ (free_of "ATTRIBUTE_" "site" = true -> snd site_boxplot = "site").
Proof.
  exact (metabolite_boxplot_frame _ _ _ _ _ _ _ site_boxplot_ok).
Defined.

(** ** Correcting a table twice *)

Lemma sort_values_rows (S : Sorter) (cols : list string) (R : list row)
  (name : string) (i : nat) :
  loc_of (mkFrame cols []) name = OK i ->
  Forall (fun r => exists q, at_pos i r = Num q) R ->
  sort_values S name (mkFrame cols R)
  = OK (mkFrame cols (sort_by S (key_at i) R)).
Proof.
  intros Hloc HR. unfold sort_values, loc_of in *. cbn [columns] in *.
  destruct (position name cols); [|discriminate].
  destruct (occurrences name cols =? 1)%nat; [|discriminate].
  injection Hloc as ->. cbn [bind rows].
  assert (E : mapM as_num (map (at_pos i) R) = OK (map (key_at i) R)).
  { induction HR as [|r R [q Hq] _ IH]; simpl; [reflexivity|].
    unfold key_at at 1. rewrite Hq. cbn [as_num bind]. now rewrite IH. }
  rewrite E. reflexivity.
Qed.

(** X14. The correction steps do not correct twice.  Applied to a table
    that [tukey] returned, [add_bonferroni_to_tukeys] returns the table
    unchanged.  Applied to a table that [anova] returned,
    [add_bonferroni_to_anova] inserts nothing and only sorts again: the
    result has the same columns and the same rows up to their order, and is
    sorted by the raw p-value. *)
Theorem correction_is_not_repeated :
  (forall P S S' sess df attribute elements t,
      tukey P S sess df attribute elements = OK t ->
      add_bonferroni_to_tukeys S' t = OK t)
  /\ (forall P S S' sess df attribute t,
         anova P S sess df attribute = OK t ->
         exists t',
           add_bonferroni_to_anova S' t = OK t'
           /\ columns t' = columns t
           /\ Permutation (rows t) (rows t')
           /\ sorted_by t' "p").
Proof.
  split.
  - intros P S S' sess df attribute elements t H.
    destruct (tukey_rows _ _ _ _ _ _ _ H) as [j [l [ns [recs [_ [_ ->]]]]]].
    reflexivity.
  - intros P S S' sess df attribute t H.
    destruct (anova_rows _ _ _ _ _ _ H) as [recs ->].
    unfold add_bonferroni_to_anova.
    change (has_column "p_bonferroni" _) with true. cbn [bind].
    change (has_column "significant" _) with true. cbn [bind].
    rewrite (sort_values_rows S' _ _ "p" 1); [|reflexivity|].
    + eexists. split; [reflexivity|]. split; [reflexivity|].
      split; [apply sort_by_perm|].
      exact (sort_by_sorted S' _ (key_at 1) _).
    + apply Forall_sort_by, Forall_forall. intros r Hr.
      apply in_map_iff in Hr. destruct Hr as [x [<- _]].
      eexists. reflexivity.
Qed.

Lemma correction_is_not_repeated_witness :
  add_bonferroni_to_tukeys reversing_sorter site_tukey = OK site_tukey
  /\ exists t',
       add_bonferroni_to_anova reversing_sorter site_anova = OK t'
       /\ columns t' = columns site_anova
       /\ Permutation (rows site_anova) (rows t')
       /\ sorted_by t' "p".
Proof.
  split.
  - exact (proj1 correction_is_not_repeated _ _ reversing_sorter _ _ _ _ _
             site_tukey_ok).
  - exact (proj2 correction_is_not_repeated _ _ reversing_sorter _ _ _ _
             site_anova_ok).
Defined.

(** ** The bracket of a tested feature *)

(** X15. On a table that [gen_ttest_data] returns for a feature table with
    distinct column names, the bracket symbol of every feature is found,
    and it is the symbol of [min(1, p * n)], where [p] is the p-value of
    the t-test on the two groups of this feature and [n] the number of
    features. *)
Theorem boxplot_symbol_of_a_tested_feature :
  forall P S sess attribute groups paired t col,
    gen_ttest_data P S sess attribute groups paired = OK t ->
    NoDup (columns (data sess)) ->
    In col (columns (data sess)) ->
    exists df gs st,
      concat_axis1 (data sess) (md sess) = OK df
      /\ feature_groups df attribute groups col = OK gs
      /\ pg_ttest P (fst gs) (snd gs) paired = OK st
      /\ ttest_boxplot_symbol t col
         = OK (bracket_symbol
                 (Qmin 1 (p_val st
                          * of_nat (length (columns (data sess)))))).
Proof.
  intros P S sess attribute groups paired t col H Hnd Hcol.
  destruct (gen_ttest_data_rows _ _ _ _ _ _ _ H)
    as [df [xs [g0 [g1 [Hdf [_ [_ [Hx ->]]]]]]]].
  destruct (Forall2_in_l _ _ _ _ Hx Hcol) as [x [HxL [Hname [gs [Hgs Hst]]]]].
  exists df, gs, (snd x). split; [exact Hdf|]. split; [exact Hgs|].
  split; [exact Hst|].
  assert (Hfst : map fst xs = columns (data sess)).
  { apply (Forall2_fst_eq _ fst _ _ (fun a b Hab => proj1 Hab) Hx). }
  assert (Hlen : length (columns (data sess)) = length xs).
  { rewrite <- Hfst. apply length_map. }
  rewrite Hlen.
  set (g := ttest_final attribute g0 g1 (length xs)).
  set (R := sort_by S (key_at 8) (map g xs)).
  set (f := fun r : row => cell_eqb (label r) (Str col)).
  assert (Hf : filter f R = [g x]).
  { apply Permutation_length_1_inv. apply Permutation_sym.
    eapply perm_trans;
      [apply Permutation_filter_compat, Permutation_sym, sort_by_perm|].
    rewrite filter_map_swap.
    rewrite (filter_ext _ (fun y => String.eqb (fst y) (fst x))).
    - rewrite (filter_unique_key fst xs x); [apply Permutation_refl| |exact HxL].
      now rewrite Hfst.
    - intros y. unfold f, g. cbn. now rewrite Hname. }
  unfold ttest_boxplot_symbol, loc_cell.
  change (loc_of (mkFrame ttest_final_columns R) "p-bonf")
    with (@OK nat 8%nat).
  cbn [bind rows]. fold f. rewrite Hf. reflexivity.
Qed.

Lemma boxplot_symbol_of_a_tested_feature_witness :
  exists df gs st,
    concat_axis1 (data mixed_session) (md mixed_session) = OK df
    /\ feature_groups df "ATTRIBUTE_group" [Str "a"; Str "b"] "shift" = OK gs
    /\ pg_ttest demo_pingouin (fst gs) (snd gs) false = OK st
    /\ ttest_boxplot_symbol mixed_ttest "shift"
       = OK (bracket_symbol
               (Qmin 1 (p_val st
                        * of_nat (length (columns (data mixed_session)))))).
Proof.
  apply (boxplot_symbol_of_a_tested_feature _ _ _ _ _ _ _ "shift"
           mixed_ttest_ok).
  - repeat constructor; simpl; intuition discriminate.
  - right. left. reflexivity.
Defined.

(** ** What the sample and blank selections contain *)

Lemma labels_where_filter (df : DataFrame) (column : string) (value : cell)
  (labels : list cell) :
  labels_where df column value = OK labels ->
  labels = map label (filter (fun r => cell_eqb (field df column r) value)
                             (rows df)).
Proof.
  unfold labels_where, get_col. intros H.
  destruct (loc_of df column) as [i|] eqn:Ei; [|discriminate].
  cbn [bind] in H. injection H as <-.
  rewrite (map_map (at_pos i) (fun c => cell_eqb c value)).
  destruct df as [cols R]. cbn [columns rows] in *.
  rewrite (filter_by_mask (fun r => cell_eqb (at_pos i r) value)).
  f_equal. apply filter_ext. intros r.
  now rewrite (loc_of_field _ _ _ r Ei).
Qed.

Lemma columns_of_shape (ft : DataFrame) (labels : list cell)
  (t : DataFrame) :
  columns_of ft labels = OK t ->
  map Str (columns t) = labels
  /\ Forall (fun c => In c (columns ft)) (columns t)
  /\ map label (rows t) = map label (rows ft)
  /\ Forall (fun r => length (cells r) = length (columns t)) (rows t).
Proof.
  intros H. pose proof (columns_of_names _ _ _ H) as Hn.
  unfold columns_of, select_columns in H.
  destruct (mapM as_str labels) as [names|]; [|discriminate].
  cbn [bind] in H.
  destruct (mapM (loc_of ft) names) as [locs|] eqn:El; [|discriminate].
  cbn [bind] in H. injection H as <-. cbn [columns rows] in *.
  split; [now symmetry|]. split; [eapply mapM_loc_of_in, El|].
  split; [now rewrite map_map|].
  assert (Hlen : length locs = length names).
  { clear Hn. revert locs El.
    induction names as [|n names IH]; simpl; intros locs El.
    - injection El as <-. reflexivity.
    - destruct (loc_of ft n); [|discriminate]. cbn [bind] in El.
      destruct (mapM (loc_of ft) names) as [ls|]; [|discriminate].
      cbn [bind] in El. injection El as <-. simpl. now rewrite (IH ls). }
  apply Forall_forall. intros r Hr. apply in_map_iff in Hr.
  destruct Hr as [r0 [<- _]]. cbn [cells]. now rewrite length_map.
Qed.

(** The columns of [t] are those columns of [ft] that are named by the
    rows of [md_] whose [column] cell equals [value], in the order of these
    rows, and [t] keeps every feature row of [ft]. *)
Definition selected_by (ft md_ : DataFrame) (column : string) (value : cell)
  (t : DataFrame) : Prop :=
  map Str (columns t)
  = map label (filter (fun r => cell_eqb (field md_ column r) value)
                      (rows md_))
  /\ Forall (fun c => In c (columns ft)) (columns t)
  /\ map label (rows t) = map label (rows ft)
  /\ Forall (fun r => length (cells r) = length (columns t)) (rows t).

(** X16. The samples are exactly the columns of the feature table named by
    the metadata rows with the chosen value, and the blanks are exactly
    those named by the rows of the remaining metadata with the chosen blank
    value; both keep all feature rows.  A selection is returned only if
    every selected metadata row names a column of the feature table. *)
Theorem selections_follow_the_metadata :
  forall ft md_ sample_column sample_row blank_column blank_row
         samples blanks,
    select_samples ft md_ sample_column sample_row = OK samples ->
    select_blanks ft md_ samples blank_column blank_row = OK blanks ->
    selected_by ft md_ sample_column sample_row samples
    /\ selected_by ft (non_samples_md md_ samples) blank_column blank_row
         blanks.
Proof.
  intros ft md_ sc sr bc br samples blanks Hs Hb.
  unfold select_samples in Hs. unfold select_blanks in Hb.
  destruct (labels_where md_ sc sr) as [ls|] eqn:Els; [|discriminate].
  destruct (labels_where (non_samples_md md_ samples) bc br) as [lb|] eqn:Elb;
    [|discriminate].
  cbn [bind] in Hs, Hb.
  apply labels_where_filter in Els. apply labels_where_filter in Elb.
  destruct (columns_of_shape _ _ _ Hs) as [A1 [A2 [A3 A4]]].
  destruct (columns_of_shape _ _ _ Hb) as [B1 [B2 [B3 B4]]].
  split; unfold selected_by.
  - rewrite A1, Els. repeat split; assumption.
  - rewrite B1, Elb. repeat split; assumption.
Qed.

Lemma prep_samples_ok :
  select_samples prep_ft prep_md "ATTRIBUTE_type" (Str "sample")
  = OK prep_samples.
Proof. vm_compute. reflexivity. Defined.

Lemma prep_blanks_ok :
  select_blanks prep_ft prep_md prep_samples "ATTRIBUTE_type" (Str "blank")
  = OK prep_blanks.
Proof. vm_compute. reflexivity. Defined.

Lemma selections_follow_the_metadata_witness :
  selected_by prep_ft prep_md "ATTRIBUTE_type" (Str "sample") prep_samples
  /\ selected_by prep_ft (non_samples_md prep_md prep_samples)
       "ATTRIBUTE_type" (Str "blank") prep_blanks.
Proof.
  exact (selections_follow_the_metadata _ _ _ _ _ _ _ _
           prep_samples_ok prep_blanks_ok).
Defined.

(** ** The share of missing values *)

Lemma of_nat_le (a b : nat) : (a <= b)%nat -> of_nat a <= of_nat b.
Proof. intros H. unfold of_nat, Qle. simpl. lia. Qed.

(** X17. For a feature table with at least one cell the share of zero
    cells that the page shows (before the factor 100) lies between 0 and
    1, and it is 0 exactly when no cell is zero. *)
Theorem zero_fraction_is_a_share :
  forall ft : DataFrame,
    all_cells ft <> [] ->
    0 <= zero_fraction ft /\ zero_fraction ft <= 1
    /\ (zero_fraction ft == 0 <->
        forall c, In c (all_cells ft) -> is_zero c = false).
Proof.
  intros ft Hne. unfold zero_fraction.
  set (z := length (filter is_zero (all_cells ft))).
  set (n := length (all_cells ft)).
  assert (Hn : (0 < n)%nat).
  { unfold n. destruct (all_cells ft); [congruence|simpl; lia]. }
  assert (Hz : (z <= n)%nat) by apply filter_length_le.
  pose proof (of_nat_pos n Hn) as Hp.
  pose proof (of_nat_nonneg z) as Hz0.
  pose proof (of_nat_le z n Hz) as Hzn.
  split; [apply Qle_shift_div_l; [exact Hp|lra]|].
  split; [apply Qle_shift_div_r; [exact Hp|lra]|].
  split.
  - intros H0 c Hc. destruct (is_zero c) eqn:E; [|reflexivity].
    assert (Hin : In c (filter is_zero (all_cells ft))).
    { apply filter_In. split; assumption. }
    assert (Hzpos : (0 < z)%nat).
    { unfold z. destruct (filter is_zero (all_cells ft));
        [contradiction|simpl; lia]. }
    pose proof (of_nat_pos z Hzpos) as Hzp.
    assert (Hfr : 0 < of_nat z / of_nat n).
    { apply Qlt_shift_div_l; [exact Hp|lra]. }
    rewrite H0 in Hfr. exfalso. apply (Qlt_irrefl _ Hfr).
  - intros Hall. assert (z = 0)%nat.
    { unfold z. now rewrite filter_none. }
    rewrite H. unfold of_nat at 1. simpl. unfold Qdiv.
    now rewrite Qmult_0_l.
Qed.

Lemma zero_fraction_is_a_share_witness :
  0 <= zero_fraction spotty_table /\ zero_fraction spotty_table <= 1
  /\ (zero_fraction spotty_table == 0 <->
      forall c, In c (all_cells spotty_table) -> is_zero c = false).
Proof. apply zero_fraction_is_a_share. discriminate. Defined.

(** ** The two samples of a feature *)

Lemma where_eq_rows (f h : row -> cell) (R : list row) (g : cell) :
  where_eq (map f R) (map h R) g
  = map f (filter (fun r => cell_eqb (h r) g) R).
Proof.
  unfold where_eq. rewrite combine_map_both, filter_map_swap, map_map.
  reflexivity.
Qed.

Lemma mapM_as_num_inv (cs : list cell) (qs : list Q) :
  mapM as_num cs = OK qs -> cs = map Num qs.
Proof.
  revert qs. induction cs as [|c cs IH]; simpl; intros qs H.
  - injection H as <-. reflexivity.
  - destruct c; try discriminate. cbn [as_num bind] in H.
    destruct (mapM as_num cs) as [qs'|]; [|discriminate].
    cbn [bind] in H. injection H as <-. simpl. now rewrite (IH qs' eq_refl).
Qed.

(** The values of the column [col] in the rows of [df] whose [attribute]
    cell equals [g]. *)
Definition values_of_group (df : DataFrame) (attribute col : string)
  (g : cell) : list cell :=
  map (field df col)
      (filter (fun r => cell_eqb (field df attribute r) g) (rows df)).

(** X18. The two samples that the t-test compares for a feature are the
    feature's values in exactly the rows labelled with the first and with
    the second target group, in the order of the rows; rows with any other
    label enter neither sample, and the sizes of the two samples are the
    same for every feature. *)
Theorem feature_groups_are_the_labelled_rows :
  forall df attribute groups col gs,
    feature_groups df attribute groups col = OK gs ->
    exists g0 g1,
      nth_error groups 0 = Some g0 /\ nth_error groups 1 = Some g1
      /\ map Num (fst gs) = values_of_group df attribute col g0
      /\ map Num (snd gs) = values_of_group df attribute col g1
      /\ length (fst gs)
         = length (filter (fun r => cell_eqb (field df attribute r) g0)
                          (rows df))
      /\ length (snd gs)
         = length (filter (fun r => cell_eqb (field df attribute r) g1)
                          (rows df)).
Proof.
  intros df attribute groups col gs H.
  unfold feature_groups, get_col, item in H.
  destruct (loc_of df col) as [i|] eqn:Ei; [|discriminate].
  cbn [bind] in H.
  destruct (loc_of df attribute) as [j|] eqn:Ej; [|discriminate].
  cbn [bind] in H.
  destruct (nth_error groups 0) as [g0|]; [|discriminate]. cbn [bind] in H.
  rewrite where_eq_rows in H.
  destruct (mapM as_num _) as [x|] eqn:Ex in H; [|discriminate].
  cbn [bind] in H.
  destruct (nth_error groups 1) as [g1|]; [|discriminate]. cbn [bind] in H.
  rewrite where_eq_rows in H.
  destruct (mapM as_num _) as [y|] eqn:Ey in H; [|discriminate].
  cbn [bind] in H. injection H as <-. cbn [fst snd].
  apply mapM_as_num_inv in Ex. apply mapM_as_num_inv in Ey.
  assert (Hf : forall g,
             filter (fun r => cell_eqb (field df attribute r) g) (rows df)
             = filter (fun r => cell_eqb (at_pos j r) g) (rows df)).
  { intros g. apply filter_ext. intros r.
    now rewrite (loc_of_field _ _ _ r Ej). }
  assert (Hm : forall l, map (field df col) l = map (at_pos i) l).
  { intros l. apply map_ext. intros r. apply (loc_of_field _ _ _ r Ei). }
  exists g0, g1. split; [reflexivity|]. split; [reflexivity|].
  unfold values_of_group. rewrite !Hf, !Hm, <- Ex, <- Ey.
  split; [reflexivity|]. split; [reflexivity|].
  split.
  - rewrite <- (length_map Num x), <- Ex. apply length_map.
  - rewrite <- (length_map Num y), <- Ey. apply length_map.
Qed.

Lemma feature_groups_are_the_labelled_rows_witness :
  exists g0 g1,
    nth_error [Str "a"; Str "b"] 0 = Some g0
    /\ nth_error [Str "a"; Str "b"] 1 = Some g1
    /\ map Num [1; 2; 3]
       = values_of_group balanced_joined "ATTRIBUTE_group" "f1" g0
    /\ map Num [10; 20; 30]
       = values_of_group balanced_joined "ATTRIBUTE_group" "f1" g1
    /\ length [1; 2; 3]
       = length (filter (fun r => cell_eqb
                                    (field balanced_joined "ATTRIBUTE_group" r)
                                    g0)
                        (rows balanced_joined))
    /\ length [10; 20; 30]
       = length (filter (fun r => cell_eqb
                                    (field balanced_joined "ATTRIBUTE_group" r)
                                    g1)
                        (rows balanced_joined)).
Proof.
  exact (feature_groups_are_the_labelled_rows _ _ _ _ _ balanced_groups).
Defined.

(** ** All or nothing *)

(** X19. The batches are all or nothing.  [anova] returns a table only if
    the one-way ANOVA succeeded on every column of the feature table, and
    [gen_ttest_data] only if the t-test succeeded on every feature: one
    failing feature fails the whole computation. *)
Theorem batches_are_all_or_nothing :
  (forall P S sess df attribute t,
      anova P S sess df attribute = OK t ->
      exists joined,
        concat_axis1 df (md sess) = OK joined
        /\ forall col, In col (columns df) ->
             exists dv between pf,
               get_col joined col = OK dv
               /\ get_col joined attribute = OK between
               /\ anova_oneway P dv between = OK pf)
  /\ (forall P S sess attribute groups paired t,
         gen_ttest_data P S sess attribute groups paired = OK t ->
         exists df,
           concat_axis1 (data sess) (md sess) = OK df
           /\ forall col, In col (columns (data sess)) ->
                exists gs st,
                  feature_groups df attribute groups col = OK gs
                  /\ pg_ttest P (fst gs) (snd gs) paired = OK st).
Proof.
  split.
  - intros P S sess df attribute t H.
    destruct (anova_rows_full _ _ _ _ _ _ H) as [joined [recs [Hj [Hr _]]]].
    exists joined. split; [exact Hj|]. intros col Hcol.
    destruct (Forall2_in_l _ _ _ _ Hr Hcol)
      as [rec [_ [_ [dv [between [Hdv [Hb Hk]]]]]]].
    exists dv, between, (snd (fst rec), snd rec). repeat split; assumption.
  - intros P S sess attribute groups paired t H.
    destruct (gen_ttest_data_rows _ _ _ _ _ _ _ H)
      as [df [xs [g0 [g1 [Hdf [_ [_ [Hx _]]]]]]]].
    exists df. split; [exact Hdf|]. intros col Hcol.
    destruct (Forall2_in_l _ _ _ _ Hx Hcol) as [x [_ [_ [gs [Hgs Hst]]]]].
    exists gs, (snd x). split; assumption.
Qed.

Lemma batches_are_all_or_nothing_witness :
  (exists joined,
      concat_axis1 (data site_session) (md site_session) = OK joined
      /\ forall col, In col (columns (data site_session)) ->
           exists dv between pf,
             get_col joined col = OK dv
             /\ get_col joined "ATTRIBUTE_site" = OK between
             /\ anova_oneway demo_pingouin dv between = OK pf)
  /\ (exists df,
         concat_axis1 (data site_session) (md site_session) = OK df
         /\ forall col, In col (columns (data site_session)) ->
              exists gs st,
                feature_groups df "ATTRIBUTE_site" [Str "a"; Str "b"] col
                = OK gs
                /\ pg_ttest demo_pingouin (fst gs) (snd gs) false = OK st).
Proof.
  split.
  - exact (proj1 batches_are_all_or_nothing _ _ _ _ _ _ site_anova_ok).
  - exact (proj2 batches_are_all_or_nothing _ _ _ _ _ _ _ site_ttest_ok).
Defined.
